(** * genrp: the Python interface of the Gaussian-process solver

    A shallow embedding of [python/genrp/_genrp.pyx]: the two extension
    classes [GP] and [Solver].  Doubles are the kernel's binary64 floats,
    C integers are [Z] with their wrap-around written out, NumPy arrays are
    lists of floats (a store of arrays where aliasing matters), and a
    method that may raise is a computation in an exception monad, with the
    object's fields threaded as state where the method assigns them. *)

From Stdlib Require Import ZArith Floats Ascii.
From stdpp Require Import gmap list strings pretty.

(** ** Exceptions and the error kinds they stand for *)

Inductive error_kind :=
| DimensionMismatch
| UnsortedInput
| NotComputed
| NumericalSingularity.

(** [ValueError], [RuntimeError] and [IndexError] are the Python exceptions
    of the source; [SolverFailure] is a failure inside the C++ library. *)
Inductive exc :=
| ValueError (msg : string)
| RuntimeError (msg : string)
| IndexError (msg : string)
| SolverFailure (k : error_kind).

Definition kind_of (e : exc) : option error_kind :=
  match e with
  | ValueError msg =>
      if String.eqb msg "dimension mismatch" then Some DimensionMismatch
      else if String.eqb msg "diagonal dimension mismatch" then Some DimensionMismatch
      else if String.eqb msg "the time series must be ordered" then Some UnsortedInput
      else if String.eqb msg "times must be sorted" then Some UnsortedInput
      else None
  | RuntimeError msg =>
      if String.eqb msg "you must call 'compute' first" then Some NotComputed
      else None
  | IndexError _ => None
  | SolverFailure k => Some k
  end.

(** ** Results and stateful computations *)

Definition res (A : Type) : Type := exc + A.

Definition res_bind {A B} (c : res A) (k : A -> res B) : res B :=
  match c with
  | inl e => inl e
  | inr a => k a
  end.

Notation "'try*' x ':=' c 'in' k" := (res_bind c (fun x => k))
  (at level 10, x name, c at level 100, k at level 200).

(** A method body: it reads and assigns the fields [S] of [self] and
    either returns or raises; the fields it leaves behind are part of the
    outcome in both cases. *)
Definition M (S A : Type) : Type := S -> res A * S.

Definition ret {S A} (a : A) : M S A := fun s => (inr a, s).
Definition raise {S A} (e : exc) : M S A := fun s => (inl e, s).
Definition bind {S A B} (c : M S A) (k : A -> M S B) : M S B :=
  fun s => match c s with
           | (inl e, s') => (inl e, s')
           | (inr a, s') => k a s'
           end.
Definition get {S} : M S S := fun s => (inr s, s).
Definition modify {S} (f : S -> S) : M S unit := fun s => (inr tt, f s).
Definition lift {S A} (c : res A) : M S A := fun s => (c, s).

Notation "'let*' x ':=' c 'in' k" := (bind c (fun x => k))
  (at level 10, x name, c at level 100, k at level 200).
Notation "c ';;' k" := (bind c (fun _ => k))
  (at level 100, k at level 200, right associativity).

(** [for i in idx: body], the loop's variables being [s]. *)
Fixpoint for_loop {S} (idx : list nat) (body : nat -> S -> res S) (s : S) : res S :=
  match idx with
  | [] => inr s
  | i :: idx' => try* s' := body i s in for_loop idx' body s'
  end.

(** [range(stop)] and [range(start, stop)]; a stop that is not above the
    start gives the empty range. *)
Definition py_range (stop : Z) : list nat := seq 0 (Z.to_nat stop).
Definition py_range2 (start stop : Z) : list nat :=
  seq (Z.to_nat start) (Z.to_nat (stop - start)).

(** Indexing a one-dimensional array, bounds checked. *)
Definition index {A} (a : list A) (i : nat) : res A :=
  match a !! i with
  | Some v => inr v
  | None => inl (IndexError "index out of bounds")
  end.

(** [shape[0]] is a signed machine word wide enough for every array. *)
Definition shape0 {A} (a : list A) : Z := Z.of_nat (length a).

(** Conversion to C [int] and to C [unsigned int]. *)
Definition to_int (z : Z) : Z := ((z + 2 ^ 31) mod 2 ^ 32 - 2 ^ 31)%Z.
Definition to_uint (z : Z) : Z := (z mod 2 ^ 32)%Z.

(** The store of the arrays the caller holds, by reference. *)
Abbreviation store := (gmap positive (list float)).

(** Two-dimensional arrays, row by row. *)
Abbreviation matrix := (list (list float)).

(** A one-dimensional array the caller passes by reference, as NumPy holds
    it: a view of the block [nd_base] of the store, whose entry [i] is the
    double at [nd_offset + i * nd_stride] of the block, for [i] below
    [nd_len]; [data] points at the double at [nd_offset]. *)
Record ndarray := mkNdarray {
  nd_base : positive;
  nd_offset : nat;
  nd_stride : nat;
  nd_len : nat
}.

(** The entries of the array [y]. *)
Definition elements (h : store) (y : ndarray) : list float :=
  map (fun i => default 0%float ((h !!! nd_base y) !! (nd_offset y + i * nd_stride y)))
      (seq 0 (nd_len y)).

(** The [n] doubles that start at [y.data]. *)
Definition read_data (h : store) (y : ndarray) (n : nat) : list float :=
  take n (drop (nd_offset y) (h !!! nd_base y)).

(** The doubles [x] written from [y.data] on. *)
Definition write_data (y : ndarray) (x : list float) (h : store) : store :=
  alter (list_inserts (nd_offset y) x) (nd_base y) h.

(** The argument [d] of the constructor of [Solver] as Python passes it:
    a number, a list of numbers, or a one-dimensional array. *)
Inductive diag_object :=
| PyNumber (x : float)
| PyList (a : list float)
| PyNdarray (a : list float).

(** [float(d)], [None] where it raises [TypeError]: it converts a number
    and an array of one entry, and no other array and no list. *)
Definition py_float (d : diag_object) : option float :=
  match d with
  | PyNumber x => Some x
  | PyNdarray [x] => Some x
  | PyNdarray _ => None
  | PyList _ => None
  end.

(** [np.atleast_1d(d)] *)
Definition np_atleast_1d (d : diag_object) : list float :=
  match d with
  | PyNumber x => [x]
  | PyList a => a
  | PyNdarray a => a
  end.

(** ** The version of the library *)

(** [get_library_version], over the three C ints of genrp/version.h, a
    header that is not part of the sources. *)
Definition get_library_version
    (GENRP_VERSION_MAJOR GENRP_VERSION_MINOR GENRP_VERSION_REVISION : Z) : string :=
  pretty GENRP_VERSION_MAJOR +:+ "." +:+
  pretty GENRP_VERSION_MINOR +:+ "." +:+
  pretty GENRP_VERSION_REVISION.

(** A string without a dot. *)
Fixpoint no_dot (s : string) : bool :=
  match s with
  | EmptyString => true
  | String c s' => negb (Ascii.eqb c "."%char) && no_dot s'
  end.

(** ** The kernel and the C++ process object *)

(** Modelled from the spec: the C++ class [Kernel] of genrp/genrp.h, which
    is not part of the sources.  A kernel is the ordered sequence of its
    terms, real ones with (log-amplitude, log-rate) and complex ones with
    (log-amplitude, log-rate, log-frequency); adding a term appends it. *)
Inductive term :=
| RealTerm (log_amp log_q : float)
| ComplexTerm (log_amp log_q log_freq : float).

Definition Kernel := list term.

Definition Kernel_add_term (k : Kernel) (log_amp log_q : float) : Kernel :=
  k ++ [RealTerm log_amp log_q].
Definition Kernel_add_term3 (k : Kernel) (log_amp log_q log_freq : float) : Kernel :=
  k ++ [ComplexTerm log_amp log_q log_freq].

Definition term_params (tm : term) : list float :=
  match tm with
  | RealTerm a q => [a; q]
  | ComplexTerm a q f => [a; q; f]
  end.

(** Modelled from the spec: the C++ class [GaussianProcess], which is not
    part of the sources.  It owns a copy of the kernel and the data of the
    last [compute]; its size is the number of free parameters,
    2 p_real + 3 p_complex, packed in term order. *)
Record GaussianProcess := mkGaussianProcess {
  gp_kernel : Kernel;
  gp_data : option (list float * list float)
}.

Definition GaussianProcess_new (k : Kernel) : GaussianProcess :=
  {| gp_kernel := k; gp_data := None |}.

Definition GaussianProcess_get_params (g : GaussianProcess) : list float :=
  concat (map term_params (gp_kernel g)).

Definition GaussianProcess_size (g : GaussianProcess) : Z :=
  shape0 (GaussianProcess_get_params g).

Fixpoint unpack_params (k : Kernel) (pars : list float) : Kernel :=
  match k with
  | [] => []
  | RealTerm a q :: k' =>
      match pars with
      | a' :: q' :: rest => RealTerm a' q' :: unpack_params k' rest
      | _ => k
      end
  | ComplexTerm a q f :: k' =>
      match pars with
      | a' :: q' :: f' :: rest => ComplexTerm a' q' f' :: unpack_params k' rest
      | _ => k
      end
  end.

Definition GaussianProcess_set_params (g : GaussianProcess) (pars : list float)
  : GaussianProcess :=
  {| gp_kernel := unpack_params (gp_kernel g) pars; gp_data := gp_data g |}.

(** Modelled from the spec: [compute] of the C++ class, which the wrapper
    declares without [except +]: the wrapper has no path on which this call
    raises a Python error, and the model takes it to return, with the data
    recorded. *)
Definition GaussianProcess_compute (g : GaussianProcess) (N : Z) (x yerr : list float)
  : GaussianProcess :=
  {| gp_kernel := gp_kernel g;
     gp_data := Some (take (Z.to_nat N) x, take (Z.to_nat N) yerr) |}.

(** ** The extension class [GP] *)

Record GP := mkGP {
  gp : GaussianProcess;
  kernel : Kernel;
  _data_size : Z
}.

Definition set_gp (g : GaussianProcess) (self : GP) : GP :=
  {| gp := g; kernel := kernel self; _data_size := _data_size self |}.
Definition set_kernel (k : Kernel) (self : GP) : GP :=
  {| gp := gp self; kernel := k; _data_size := _data_size self |}.
Definition set_data_size (n : Z) (self : GP) : GP :=
  {| gp := gp self; kernel := kernel self; _data_size := n |}.

(** [__cinit__] *)
Definition GP_cinit : GP :=
  {| gp := GaussianProcess_new []; kernel := []; _data_size := -1 |}.

(** [__len__] *)
Definition GP_len (self : GP) : Z := GaussianProcess_size (gp self).

(** the property [computed] *)
Definition computed (self : GP) : bool := (0 <=? _data_size self)%Z.

(** the getter of the property [params] *)
Definition GP_params_get (self : GP) : list float :=
  GaussianProcess_get_params (gp self).

(** the setter of the property [params] *)
Definition GP_params_set (p : list float) : M GP unit :=
  let* self := get in
  if negb (shape0 p =? GaussianProcess_size (gp self))%Z
  then raise (ValueError "dimension mismatch")
  else
    modify (fun self => set_gp (GaussianProcess_set_params (gp self) p) self) ;;
    modify (set_data_size (-1)).

(** Python indexing of an array by a possibly negative integer. *)
Definition py_index {A} (a : list A) (i : Z) : res nat :=
  let n := shape0 a in
  if ((0 <=? i) && (i <? n))%Z then inr (Z.to_nat i)
  else if ((- n <=? i) && (i <? 0))%Z then inr (Z.to_nat (i + n))
  else inl (IndexError "index out of bounds").

(** [__getitem__] *)
Definition GP_getitem (i : Z) : M GP float :=
  let* self := get in
  let params := GP_params_get self in
  let* k := lift (py_index params i) in
  lift (index params k).

(** [__setitem__] *)
Definition GP_setitem (i : Z) (value : float) : M GP unit :=
  let* self := get in
  let params := GP_params_get self in
  let* k := lift (py_index params i) in
  let params := <[k := value]> params in
  GP_params_set params.

(** [add_term] *)
Definition GP_add_term (log_amp log_q : float) (log_freq : option float) : M GP unit :=
  match log_freq with
  | None => modify (fun self => set_kernel (Kernel_add_term (kernel self) log_amp log_q) self)
  | Some f => modify (fun self => set_kernel (Kernel_add_term3 (kernel self) log_amp log_q f) self)
  end ;;
  modify (fun self => set_gp (GaussianProcess_new (kernel self)) self) ;;
  modify (set_data_size (-1)).

(** One round of the loop of [compute], over [i]. *)
Definition ordered_round (x : list float) (i : nat) (_ : unit) : res unit :=
  try* a := index x (i + 1) in
  try* b := index x i in
  if (a <=? b)%float
  then inl (ValueError "the time series must be ordered")
  else inr tt.

(** [compute] *)
Definition GP_compute (x yerr : list float) : M GP unit :=
  if negb (shape0 x =? shape0 yerr)%Z
  then raise (ValueError "dimension mismatch")
  else
    lift (for_loop (py_range (shape0 x - 1)) (ordered_round x) tt) ;;
    modify (set_data_size (to_int (shape0 x))) ;;
    modify (fun self =>
      set_gp (GaussianProcess_compute (gp self) (_data_size self) x yerr) self).

(** Values a method hands back to Python. *)
Inductive pyval :=
| PyNone
| PyBool (b : bool)
| PyInt (z : Z)
| PyFloat (x : float)
| PyArray (a : list float).

(** The methods of [GP] that assign its fields or raise, and the
    getters, as calls; [get_matrix], [get_psd] and [sample] only evaluate
    the kernel. *)
Inductive gp_call :=
| CallLen
| CallComputed
| CallParamsGet
| CallParamsSet (p : list float)
| CallGetItem (i : Z)
| CallSetItem (i : Z) (value : float)
| CallAddTerm (log_amp log_q : float) (log_freq : option float)
| CallCompute (x yerr : list float)
| CallLogLikelihood (y : list float).

Definition is_ok {A} (r : res A) : bool :=
  match r with
  | inl _ => false
  | inr _ => true
  end.

(** Modelled from the spec: the C++ class [BandSolver] of genrp/genrp.h,
    which is not part of the sources.  It is built from the coefficient
    arrays; [compute] binds it to a time grid and a diagonal and factors
    the matrix; [solve] and [log_determinant] need a factorization and fail
    with NotComputed without one. *)
Record BandSolver := mkBandSolver {
  bs_alpha_real : list float;
  bs_beta_real : list float;
  bs_alpha_complex : list float;
  bs_beta_complex : list (float * float);
  bs_data : option (list float * list float)
}.

(** ** Concrete processes, solvers and numerical sides *)

Module Examples.

Definition zero_likelihood : GaussianProcess -> list float -> float :=
  fun _ _ => 0%float.
Definition linear : float -> float := fun x => x.
Definition left_sum (a : list float) : float := fold_left PrimFloat.add a 0%float.
Definition stale : nat -> float := fun _ => nan.
Definition no_solve : BandSolver -> list float -> list float := fun _ b => b.
Definition no_log_det : BandSolver -> float := fun _ => 0%float.
Definition abs_kernel : GaussianProcess -> float -> float := fun _ d => abs d.
Definition twice_solve : BandSolver -> list float -> list float :=
  fun _ b => map (fun v => (v * 2)%float) b.

Definition times3 : list float := [0%float; 1%float; 2%float].
Definition times_tied : list float := [0%float; 1%float; 1%float; 2%float].
Definition ones (n : nat) : list float := replicate n 1%float.

(** A process with no terms, computed on two points. *)
Definition fitted : GP := (GP_compute [0%float; 1%float] (ones 2) GP_cinit).2.

End Examples.

Section Genrp.

(** The numerical side, which the interface only calls: the value of the
    C++ log-likelihood, the solution and log-determinant of the C++ band
    solver, [exp] and [cos] of libc, NumPy's [sum], and the contents of
    memory that [np.empty] hands out. *)
Variable log_likelihood_value : GaussianProcess -> list float -> float.
Variable exp cos : float -> float.
Variable np_sum : list float -> float.
Variable uninit : nat -> float.

(** [log_likelihood] *)
Definition GP_log_likelihood (y : list float) : M GP float :=
  let* self := get in
  if negb (computed self)
  then raise (RuntimeError "you must call 'compute' first")
  else if negb (shape0 y =? _data_size self)%Z
  then raise (ValueError "dimension mismatch")
  else ret (log_likelihood_value (gp self) y).

Definition GP_call (c : gp_call) : M GP pyval :=
  match c with
  | CallLen => let* self := get in ret (PyInt (GP_len self))
  | CallComputed => let* self := get in ret (PyBool (computed self))
  | CallParamsGet => let* self := get in ret (PyArray (GP_params_get self))
  | CallParamsSet p => GP_params_set p ;; ret PyNone
  | CallGetItem i => let* v := GP_getitem i in ret (PyFloat v)
  | CallSetItem i value => GP_setitem i value ;; ret PyNone
  | CallAddTerm log_amp log_q log_freq => GP_add_term log_amp log_q log_freq ;; ret PyNone
  | CallCompute x yerr => GP_compute x yerr ;; ret PyNone
  | CallLogLikelihood y => let* v := GP_log_likelihood y in ret (PyFloat v)
  end.

(** The object after a sequence of calls, whether they return or raise. *)
Fixpoint GP_run (cs : list gp_call) (self : GP) : GP :=
  match cs with
  | [] => self
  | c :: cs' => GP_run cs' (GP_call c self).2
  end.

(** No call of the sequence is a [compute] that returns. *)
Fixpoint no_compute_returns (cs : list gp_call) (self : GP) : bool :=
  match cs with
  | [] => true
  | c :: cs' =>
      negb (match c with
            | CallCompute _ _ => is_ok (GP_call c self).1
            | _ => false
            end)
      && no_compute_returns cs' (GP_call c self).2
  end.

(** ** The C++ band solver *)

(** The value of [solve] and of [log_determinant] on a factored solver. *)
Variable solve_value : BandSolver -> list float -> list float.
Variable log_determinant_value : BandSolver -> float.

Definition BandSolver_new (p_real : Z) (alpha_real beta_real : list float)
    (p_complex : Z) (alpha_complex : list float) (beta_complex : list (float * float))
  : BandSolver :=
  {| bs_alpha_real := take (Z.to_nat p_real) alpha_real;
     bs_beta_real := take (Z.to_nat p_real) beta_real;
     bs_alpha_complex := take (Z.to_nat p_complex) alpha_complex;
     bs_beta_complex := take (Z.to_nat p_complex) beta_complex;
     bs_data := None |}.

(** Modelled from the spec: [compute] of the C++ solver, which the wrapper
    declares without [except +]: the wrapper has no path on which this call
    raises a Python error, and the model takes it to return, with the grid
    and the diagonal recorded. *)
Definition BandSolver_compute (bs : BandSolver) (N : Z) (t d : list float) : BandSolver :=
  {| bs_alpha_real := bs_alpha_real bs;
     bs_beta_real := bs_beta_real bs;
     bs_alpha_complex := bs_alpha_complex bs;
     bs_beta_complex := bs_beta_complex bs;
     bs_data := Some (take (Z.to_nat N) t, take (Z.to_nat N) d) |}.

Definition BandSolver_solve (bs : BandSolver) (b : list float) : res (list float) :=
  match bs_data bs with
  | Some _ => inr (solve_value bs b)
  | None => inl (SolverFailure NotComputed)
  end.

Definition BandSolver_log_determinant (bs : BandSolver) : res float :=
  match bs_data bs with
  | Some _ => inr (log_determinant_value bs)
  | None => inl (SolverFailure NotComputed)
  end.

(** ** The extension class [Solver] *)

Record Solver := mkSolver {
  solver : BandSolver;
  N : Z;
  t : list float;
  diagonal : list float;
  p_real : Z;
  alpha_real : list float;
  beta_real : list float;
  p_complex : Z;
  alpha_complex : list float;
  beta_complex : list (float * float)
}.

(** The argument [d] of the constructor, by what [float(d)] does with it:
    [DScalar] is an object that [float] converts, [DArray] one on which it
    raises [TypeError], seen through [np.atleast_1d]. *)
Inductive diag_arg :=
| DScalar (d : float)
| DArray (d : list float).

(** [np.diff(t)] *)
Definition np_diff (t : list float) : list float :=
  zip_with (fun b a => (b - a)%float) (tail t) t.

(** [np.all(a > 0.0)] *)
Definition np_all_positive (a : list float) : bool :=
  forallb (fun v => (0 <? v)%float) a.

(** [np.zeros_like(t)] *)
Definition np_zeros_like (t : list float) : list float :=
  map (fun _ => 0%float) t.

(** [__cinit__] *)
Definition Solver_cinit (alpha_real beta_real alpha_complex : list float)
    (beta_complex : list (float * float)) (t : list float) (d : diag_arg) : res Solver :=
  if negb (np_all_positive (np_diff t))
  then inl (ValueError "times must be sorted")
  else if negb (shape0 alpha_real =? shape0 beta_real)%Z
  then inl (ValueError "dimension mismatch")
  else if negb (shape0 alpha_complex =? shape0 beta_complex)%Z
  then inl (ValueError "dimension mismatch")
  else
    let N := to_uint (shape0 t) in
    let p_real := to_uint (shape0 alpha_real) in
    let p_complex := to_uint (shape0 alpha_complex) in
    try* d := match d with
              | DScalar d => inr (map (fun z => (d + z)%float) (np_zeros_like t))
              | DArray d =>
                  if negb (shape0 d =? N)%Z
                  then inl (ValueError "diagonal dimension mismatch")
                  else inr d
              end in
    let bs := BandSolver_new p_real alpha_real beta_real
                             p_complex alpha_complex beta_complex in
    let bs := BandSolver_compute bs N t d in
    inr {| solver := bs; N := N; t := t; diagonal := d;
           p_real := p_real; alpha_real := alpha_real; beta_real := beta_real;
           p_complex := p_complex; alpha_complex := alpha_complex;
           beta_complex := beta_complex |}.

(** A double that is an infinity or a finite number other than zero,
    of sign [s]. *)
Definition signed (s : bool) (x : spec_float) : Prop :=
  match x with
  | S754_finite s' _ _ | S754_infinity s' => s' = s
  | _ => False
  end.

(** A strictly increasing array, as the spec has it: every entry is
    below the next one. *)
Fixpoint strictly_increasing (t : list float) : bool :=
  match t with
  | a :: t' =>
      match t' with
      | b :: _ => (a <? b)%float && strictly_increasing t'
      | [] => true
      end
  | [] => true
  end.

(** The three checks the constructor opens with all pass. *)
Definition checks_pass (alpha_real beta_real alpha_complex : list float)
    (beta_complex : list (float * float)) (t : list float) : Prop :=
  strictly_increasing t = true /\
  length alpha_real = length beta_real /\
  length alpha_complex = length beta_complex.

(** What the [try] on [float(d)] of the constructor makes of [d]. *)
Definition diag_arg_of (d : diag_object) : diag_arg :=
  match py_float d with
  | Some x => DScalar x
  | None => DArray (np_atleast_1d d)
  end.

(** [__cinit__] on the argument [d] as Python passes it. *)
Definition Solver_construct (alpha_real beta_real alpha_complex : list float)
    (beta_complex : list (float * float)) (t : list float) (d : diag_object) : res Solver :=
  Solver_cinit alpha_real beta_real alpha_complex beta_complex t (diag_arg_of d).

(** the property [log_determinant] *)
Definition Solver_log_determinant (self : Solver) : res float :=
  BandSolver_log_determinant (solver self).

(** [np.empty_like(y)]: a new block, and the contiguous array of the
    length of [y] that views it. *)
Definition np_empty_like (y : ndarray) : M store ndarray :=
  let* h := get in
  let r := fresh (dom h) in
  modify (<[r := map uninit (seq 0 (nd_len y))]>) ;;
  ret {| nd_base := r; nd_offset := 0; nd_stride := 1; nd_len := nd_len y |}.

(** [apply_inverse]: the C++ solver reads the [N] doubles at [y.data] and
    writes [N] doubles at the pointer it is given, whatever the strides of
    [y] are. *)
Definition Solver_apply_inverse (self : Solver) (y : ndarray) (in_place : bool)
  : M store ndarray :=
  if negb (Z.of_nat (nd_len y) =? N self)%Z
  then raise (ValueError "dimension mismatch")
  else if in_place
  then
    let* h := get in
    let* x := lift (BandSolver_solve (solver self)
                      (read_data h y (Z.to_nat (N self)))) in
    modify (write_data y (take (Z.to_nat (N self)) x)) ;;
    ret y
  else
    let* alpha := np_empty_like y in
    let* h := get in
    let* x := lift (BandSolver_solve (solver self)
                      (read_data h y (Z.to_nat (N self)))) in
    modify (write_data alpha (take (Z.to_nat (N self)) x)) ;;
    ret alpha.

(** [np.empty((n, m))] *)
Definition np_empty2 (n m : Z) : matrix :=
  map (fun i => map (fun j => uninit (i * Z.to_nat m + j)) (seq 0 (Z.to_nat m)))
      (seq 0 (Z.to_nat n)).

Definition mat_get (A : matrix) (i j : nat) : option float :=
  A !! i ≫= fun row => row !! j.

(** [A[i, j] = v], bounds checked. *)
Definition mat_set (A : matrix) (i j : nat) (v : float) : res matrix :=
  match A !! i with
  | Some row =>
      if decide (j < length row)
      then inr (<[i := <[j := v]> row]> A)
      else inl (IndexError "index out of bounds")
  | None => inl (IndexError "index out of bounds")
  end.

(** [get_matrix] *)
Definition Solver_get_matrix (self : Solver) : res matrix :=
  let asum := (np_sum (alpha_real self) + np_sum (alpha_complex self))%float in
  let A := np_empty2 (N self) (N self) in
  for_loop (py_range (N self)) (fun i A =>
    try* di := index (diagonal self) i in
    try* A := mat_set A i i (di + asum)%float in
    for_loop (py_range2 (Z.of_nat i + 1) (N self)) (fun j A =>
      try* ti := index (t self) i in
      try* tj := index (t self) j in
      let delta := abs (ti - tj) in
      let value := 0%float in
      try* value := for_loop (py_range (p_real self)) (fun p value =>
        try* a := index (alpha_real self) p in
        try* b := index (beta_real self) p in
        inr (value + a * exp (- b * delta))%float) value in
      try* value := for_loop (py_range (p_complex self)) (fun p value =>
        try* a := index (alpha_complex self) p in
        try* b := index (beta_complex self) p in
        inr (value + a * (exp (- b.1 * delta) * cos (b.2 * delta)))%float) value in
      try* A := mat_set A i j value in
      mat_set A j i value) A) A.

(** The covariance at lag [delta] as the spec writes it, the real terms
    and then the complex ones added up in term order. *)
Definition covariance (alpha_real beta_real alpha_complex : list float)
    (beta_complex : list (float * float)) (delta : float) : float :=
  fold_left (fun v ab => (v + ab.1 * (exp (- ab.2.1 * delta) * cos (ab.2.2 * delta)))%float)
    (zip alpha_complex beta_complex)
    (fold_left (fun v ab => (v + ab.1 * exp (- ab.2 * delta))%float)
       (zip alpha_real beta_real) 0%float).

(** The entry [K[i,j]] of the covariance matrix as the spec writes it. *)
Definition K_entry (self : Solver) (i j : nat) : option float :=
  if decide (i = j)
  then diagonal self !! i ≫= fun di =>
       Some (di + (np_sum (alpha_real self) + np_sum (alpha_complex self)))%float
  else t self !! i ≫= fun ti => t self !! j ≫= fun tj =>
       Some (covariance (alpha_real self) (beta_real self)
                        (alpha_complex self) (beta_complex self) (abs (ti - tj))).

(** An [n] by [n] array. *)
Definition mat_shape (n : nat) (A : matrix) : Prop :=
  length A = n /\ Forall (fun row => length row = n) A.

(** ** The methods of [GP] that evaluate the kernel *)

(** [A[i, j]] read, bounds checked. *)
Definition mat_index (A : matrix) (i j : nat) : res float :=
  match mat_get A i j with
  | Some v => inr v
  | None => inl (IndexError "index out of bounds")
  end.

(** [a[i] = v], bounds checked. *)
Definition vec_set (a : list float) (i : nat) (v : float) : res (list float) :=
  if decide (i < length a)
  then inr (<[i := v]> a)
  else inl (IndexError "index out of bounds").

(** [x1[:, None] - x2[None, :]] *)
Definition np_outer_sub (x1 x2 : list float) : matrix :=
  map (fun a => map (fun b => (a - b)%float) x2) x1.

(** An [n] by [m] array. *)
Definition rect (n m : nat) (A : matrix) : Prop :=
  length A = n /\ Forall (fun row => length row = m) A.

(** No entry is NaN. *)
Definition no_nan (x : list float) : Prop :=
  forall a, a ∈ x -> is_nan a = false.

(** A call that is not [add_term]. *)
Definition not_add_term (c : gp_call) : bool :=
  match c with
  | CallAddTerm _ _ _ => false
  | _ => true
  end.

(** The covariance function and the spectral density of the C++ process,
    which [get_matrix] and [get_psd] call point by point. *)
Variable kernel_value kernel_psd : GaussianProcess -> float -> float.

(** [get_matrix] of [GP]; without [x2] the differences are taken within
    [x1]. *)
Definition GP_get_matrix (x1 : list float) (x2 : option (list float)) : M GP matrix :=
  let* self := get in
  let x2 := match x2 with
            | None => x1
            | Some x2 => x2
            end in
  let K := np_outer_sub x1 x2 in
  lift (for_loop (py_range (shape0 x1)) (fun i K =>
    for_loop (py_range (shape0 x2)) (fun j K =>
      try* k := mat_index K i j in
      mat_set K i j (kernel_value (gp self) k)) K) K).

(** [get_psd] *)
Definition GP_get_psd (w : list float) : M GP (list float) :=
  let* self := get in
  let psd := map uninit (seq 0 (length w)) in
  lift (for_loop (py_range (shape0 w)) (fun i psd =>
    try* wi := index w i in
    vec_set psd i (kernel_psd (gp self) wi)) psd).

(** ** Loops *)

Lemma for_loop_app {S} (l1 l2 : list nat) (body : nat -> S -> res S) (s : S) :
  for_loop (l1 ++ l2) body s = try* s' := for_loop l1 body s in for_loop l2 body s'.
Proof.
  revert s. induction l1 as [|i l1 IH]; intros s; simpl; [done|].
  destruct (body i s) as [e|s']; simpl; [done|]. apply IH.
Qed.

(** A loop whose every round returns keeps an invariant [P], indexed by
    the number of rounds made. *)
Lemma for_loop_invariant {S} (P : nat -> S -> Prop) (idx : list nat)
    (body : nat -> S -> res S) (s : S) :
  P 0 s ->
  (forall k i s, idx !! k = Some i -> P k s ->
     exists s', body i s = inr s' /\ P (Datatypes.S k) s') ->
  exists s', for_loop idx body s = inr s' /\ P (length idx) s'.
Proof.
  revert P s. induction idx as [|i idx IH]; intros P s H0 Hstep; simpl.
  - eauto.
  - destruct (Hstep 0 i s eq_refl H0) as (s1 & -> & H1). simpl.
    apply (IH (fun k => P (Datatypes.S k))); [done|].
    intros k j s2 Hk. apply (Hstep (Datatypes.S k)). done.
Qed.

(** A loop over a state it never changes: it raises [e] as soon as one
    round does, when no round raises anything else. *)
Lemma for_loop_raises {S} (idx : list nat) (body : nat -> S -> res S) (s : S) (e : exc) :
  (forall i, i ∈ idx -> body i s = inr s \/ body i s = inl e) ->
  (exists i, i ∈ idx /\ body i s = inl e) ->
  for_loop idx body s = inl e.
Proof.
  induction idx as [|i idx IH]; intros Hall (j & Hj & Hje).
  - by apply elem_of_nil in Hj.
  - simpl. destruct (Hall i) as [Hi|Hi]; [left| |]; rewrite Hi; simpl; [|done].
    apply IH.
    + intros k Hk. apply Hall. by right.
    + apply elem_of_cons in Hj as [->|Hj]; [congruence|eauto].
Qed.

Lemma for_loop_returns {S} (idx : list nat) (body : nat -> S -> res S) (s : S) :
  (forall i, i ∈ idx -> body i s = inr s) ->
  for_loop idx body s = inr s.
Proof.
  induction idx as [|i idx IH]; intros Hall; simpl; [done|].
  rewrite Hall by left. simpl. apply IH. intros k Hk. apply Hall. by right.
Qed.

Lemma py_range_pred_length {A} (x : list A) :
  py_range (shape0 x - 1) = seq 0 (length x - 1).
Proof. unfold py_range, shape0. f_equal. lia. Qed.

Lemma index_Some {A} (a : list A) (i : nat) (v : A) :
  a !! i = Some v -> index a i = inr v.
Proof. unfold index. by intros ->. Qed.

(** ** The ordering check of [GP.compute] *)

Lemma ordered_round_eq (x : list float) (i : nat) (a b : float) (u : unit) :
  x !! i = Some a -> x !! (i + 1) = Some b ->
  ordered_round x i u =
    if (b <=? a)%float then inl (ValueError "the time series must be ordered") else inr tt.
Proof.
  intros Ha Hb. unfold ordered_round.
  rewrite (index_Some _ _ _ Hb). simpl. rewrite (index_Some _ _ _ Ha). done.
Qed.

Lemma in_range_lookups (x : list float) (i : nat) :
  i ∈ seq 0 (length x - 1) ->
  exists a b, x !! i = Some a /\ x !! (i + 1) = Some b.
Proof.
  intros Hi. apply elem_of_seq in Hi.
  destruct (lookup_lt_is_Some_2 x i) as [a Ha]; [lia|].
  destruct (lookup_lt_is_Some_2 x (i + 1)) as [b Hb]; [lia|]. eauto.
Qed.

Lemma ordered_loop_returns (x : list float) :
  (forall i a b, x !! i = Some a -> x !! (i + 1) = Some b -> (b <=? a)%float = false) ->
  for_loop (py_range (shape0 x - 1)) (ordered_round x) tt = inr tt.
Proof.
  intros Hord. rewrite py_range_pred_length. apply for_loop_returns.
  intros i Hi. destruct (in_range_lookups x i Hi) as (a & b & Ha & Hb).
  rewrite (ordered_round_eq x i a b tt Ha Hb). by rewrite (Hord i a b).
Qed.

Lemma ordered_loop_raises (x : list float) :
  (exists i a b, x !! i = Some a /\ x !! (i + 1) = Some b /\ (b <=? a)%float = true) ->
  for_loop (py_range (shape0 x - 1)) (ordered_round x) tt =
    inl (ValueError "the time series must be ordered").
Proof.
  intros (i & a & b & Ha & Hb & Hle). rewrite py_range_pred_length.
  apply for_loop_raises.
  - intros k Hk. destruct (in_range_lookups x k Hk) as (a' & b' & Ha' & Hb').
    rewrite (ordered_round_eq x k a' b' tt Ha' Hb'). destruct (b' <=? a')%float; auto.
  - exists i. split.
    + apply elem_of_seq. apply lookup_lt_Some in Hb. lia.
    + rewrite (ordered_round_eq x i a b tt Ha Hb). by rewrite Hle.
Qed.

Lemma GP_compute_unfold (x yerr : list float) (self : GP) :
  GP_compute x yerr self =
    if negb (shape0 x =? shape0 yerr)%Z
    then (inl (ValueError "dimension mismatch"), self)
    else match for_loop (py_range (shape0 x - 1)) (ordered_round x) tt with
         | inl e => (inl e, self)
         | inr _ => (inr tt,
                     set_gp (GaussianProcess_compute (gp self) (to_int (shape0 x)) x yerr)
                       (set_data_size (to_int (shape0 x)) self))
         end.
Proof.
  unfold GP_compute. destruct (negb _); [done|].
  unfold bind, lift, modify.
  by destruct (for_loop _ _ _).
Qed.

Lemma to_int_small (z : Z) : (- 2 ^ 31 <= z < 2 ^ 31)%Z -> to_int z = z.
Proof. intros Hz. unfold to_int. rewrite Z.mod_small; lia. Qed.

Lemma shape0_eqb {A B} (a : list A) (b : list B) :
  (shape0 a =? shape0 b)%Z = bool_decide (length a = length b).
Proof.
  unfold shape0. case_bool_decide as H.
  - rewrite H. apply Z.eqb_refl.
  - apply Z.eqb_neq. lia.
Qed.

(** ** The life cycle of [GP] *)

Lemma GP_params_set_unfold (p : list float) (self : GP) :
  GP_params_set p self =
    if negb (shape0 p =? GaussianProcess_size (gp self))%Z
    then (inl (ValueError "dimension mismatch"), self)
    else (inr tt, set_data_size (-1) (set_gp (GaussianProcess_set_params (gp self) p) self)).
Proof. unfold GP_params_set, bind, get. simpl. by destruct (negb _). Qed.

Lemma GP_params_set_returns (p : list float) (self self' : GP) (u : unit) :
  GP_params_set p self = (inr u, self') -> _data_size self' = (-1)%Z.
Proof.
  rewrite GP_params_set_unfold. destruct (negb _); [done|]. by intros [= _ <-].
Qed.

Lemma GP_params_set_raises (p : list float) (self self' : GP) (e : exc) :
  GP_params_set p self = (inl e, self') -> self' = self.
Proof.
  rewrite GP_params_set_unfold. destruct (negb _); [|done]. by intros [= _ <-].
Qed.

Lemma GP_setitem_unfold (i : Z) (value : float) (self : GP) :
  GP_setitem i value self =
    match py_index (GP_params_get self) i with
    | inl e => (inl e, self)
    | inr k => GP_params_set (<[k := value]> (GP_params_get self)) self
    end.
Proof. unfold GP_setitem, bind, get, lift. by destruct (py_index _ _). Qed.

Lemma GP_add_term_unfold (log_amp log_q : float) (log_freq : option float) (self : GP) :
  GP_add_term log_amp log_q log_freq self =
    (inr tt,
     let k := match log_freq with
              | None => Kernel_add_term (kernel self) log_amp log_q
              | Some f => Kernel_add_term3 (kernel self) log_amp log_q f
              end in
     {| gp := GaussianProcess_new k; kernel := k; _data_size := -1 |}).
Proof. by destruct log_freq. Qed.

Lemma GP_log_likelihood_unfold (y : list float) (self : GP) :
  GP_log_likelihood y self =
    if negb (computed self)
    then (inl (RuntimeError "you must call 'compute' first"), self)
    else if negb (shape0 y =? _data_size self)%Z
    then (inl (ValueError "dimension mismatch"), self)
    else (inr (log_likelihood_value (gp self) y), self).
Proof.
  unfold GP_log_likelihood, bind, get. simpl.
  destruct (negb (computed self)); [done|]. by destruct (negb _).
Qed.

Lemma GP_compute_raises (x yerr : list float) (self self' : GP) (e : exc) :
  GP_compute x yerr self = (inl e, self') -> self' = self.
Proof.
  rewrite GP_compute_unfold. destruct (negb _); [by intros [= _ <-]|].
  destruct (for_loop _ _ _); [by intros [= _ <-]|done].
Qed.

(** A call that leaves the object computed when it was not is a
    [compute] that returned. *)
Lemma GP_call_computes (c : gp_call) (self : GP) :
  computed self = false ->
  computed (GP_call c self).2 = true ->
  exists x yerr, c = CallCompute x yerr /\ is_ok (GP_call c self).1 = true.
Proof.
  intros Hn. destruct c as [| | |p|i|i v|a q f|x yerr|y]; simpl;
    unfold bind, get, ret; simpl.
  - congruence.
  - congruence.
  - congruence.
  - rewrite GP_params_set_unfold. destruct (negb _); simpl; [congruence|done].
  - unfold GP_getitem, bind, get, lift. simpl.
    destruct (py_index _ _); simpl; [congruence|].
    destruct (index _ _); simpl; congruence.
  - rewrite GP_setitem_unfold. destruct (py_index _ _); simpl; [congruence|].
    rewrite GP_params_set_unfold. destruct (negb _); simpl; [congruence|done].
  - rewrite GP_add_term_unfold. simpl. done.
  - intros Hc. exists x, yerr. split; [done|]. revert Hc.
    rewrite GP_compute_unfold. destruct (negb _); simpl; [congruence|].
    destruct (for_loop _ _ _); simpl; [congruence|done].
  - rewrite GP_log_likelihood_unfold. rewrite Hn. simpl. congruence.
Qed.

(** C2: an assignment to [params] that returns (directly or through
    [__setitem__]) and every [add_term] leave the process not computed,
    and from a process that is not computed no sequence of calls makes
    [computed] true unless one of them is a [compute] that returns. *)
Theorem C2_not_computed_until_compute :
  (forall p self self',
     GP_params_set p self = (inr tt, self') -> computed self' = false) /\
  (forall i value self self',
     GP_setitem i value self = (inr tt, self') -> computed self' = false) /\
  (forall log_amp log_q log_freq self,
     exists self', GP_add_term log_amp log_q log_freq self = (inr tt, self') /\
                   computed self' = false) /\
  (forall cs self,
     computed self = false -> no_compute_returns cs self = true ->
     computed (GP_run cs self) = false).
Proof.
  split; [|split; [|split]].
  - intros p self self' H. unfold computed.
    by rewrite (GP_params_set_returns _ _ _ _ H).
  - intros i value self self'. rewrite GP_setitem_unfold.
    destruct (py_index _ _); [done|]. intros H. unfold computed.
    by rewrite (GP_params_set_returns _ _ _ _ H).
  - intros log_amp log_q log_freq self. rewrite GP_add_term_unfold. eauto.
  - intros cs. induction cs as [|c cs IH]; intros self Hn Hcs; simpl in *; [done|].
    apply andb_true_iff in Hcs as [Hc Hcs]. apply IH; [|done].
    destruct (computed (GP_call c self).2) eqn:E; [|done].
    destruct (GP_call_computes c self Hn E) as (x & yerr & -> & Hok).
    by rewrite Hok in Hc.
Qed.

(** C3: [log_likelihood] on a process that is not computed raises the
    NotComputed error, whatever the length of [y]; on a computed process
    and a [y] whose length is not the recorded size it raises the
    DimensionMismatch error; otherwise it returns.  The object is the same
    afterwards in all three cases. *)
Theorem C3_log_likelihood_errors (y : list float) (self : GP) :
  (computed self = false ->
     exists e, GP_log_likelihood y self = (inl e, self) /\
               e = RuntimeError "you must call 'compute' first" /\
               kind_of e = Some NotComputed) /\
  (computed self = true -> shape0 y <> _data_size self ->
     exists e, GP_log_likelihood y self = (inl e, self) /\
               e = ValueError "dimension mismatch" /\
               kind_of e = Some DimensionMismatch) /\
  (computed self = true -> shape0 y = _data_size self ->
     GP_log_likelihood y self = (inr (log_likelihood_value (gp self) y), self)).
Proof.
  rewrite GP_log_likelihood_unfold. split; [|split].
  - intros ->. simpl. eauto.
  - intros -> Hne. simpl. apply Z.eqb_neq in Hne as ->. simpl. eauto.
  - intros -> ->. simpl. by rewrite Z.eqb_refl.
Qed.

Lemma GP_compute_returns (x yerr : list float) (self : GP) :
  length x = length yerr ->
  (forall i a b, x !! i = Some a -> x !! (i + 1) = Some b -> (b <=? a)%float = false) ->
  (shape0 x < 2 ^ 31)%Z ->
  exists self', GP_compute x yerr self = (inr tt, self') /\
                _data_size self' = shape0 x /\
                computed self' = true.
Proof.
  intros Heq Hord Hfit. rewrite GP_compute_unfold, shape0_eqb.
  rewrite bool_decide_eq_true_2 by done. simpl.
  rewrite (ordered_loop_returns x Hord). eexists. split; [done|].
  unfold computed. simpl. rewrite to_int_small by (unfold shape0 in *; lia).
  split; [done|]. apply Z.leb_le. unfold shape0. lia.
Qed.

(** C4: [compute] raises the DimensionMismatch error when the lengths of
    [x] and [yerr] differ; with equal lengths it raises the UnsortedInput
    error when some [x[i+1] <= x[i]]; when no such [i] exists it returns,
    the recorded size is [len(x)] (a C int) and the process is computed.
    A [compute] that raises leaves the object as it was. *)
Theorem C4_compute_validation (x yerr : list float) (self : GP) :
  (length x <> length yerr ->
     exists e, GP_compute x yerr self = (inl e, self) /\
               e = ValueError "dimension mismatch" /\
               kind_of e = Some DimensionMismatch) /\
  (length x = length yerr ->
     (exists i a b, x !! i = Some a /\ x !! (i + 1) = Some b /\ (b <=? a)%float = true) ->
     exists e, GP_compute x yerr self = (inl e, self) /\
               e = ValueError "the time series must be ordered" /\
               kind_of e = Some UnsortedInput) /\
  (length x = length yerr ->
     (forall i a b, x !! i = Some a -> x !! (i + 1) = Some b -> (b <=? a)%float = false) ->
     (shape0 x < 2 ^ 31)%Z ->
     exists self', GP_compute x yerr self = (inr tt, self') /\
                   _data_size self' = shape0 x /\
                   computed self' = true).
Proof.
  split; [|split]; [| |apply GP_compute_returns];
    rewrite GP_compute_unfold, shape0_eqb.
  - intros Hne. rewrite bool_decide_eq_false_2 by done. simpl. eauto.
  - intros Heq Hbad. rewrite bool_decide_eq_true_2 by done. simpl.
    rewrite (ordered_loop_raises x Hbad). eauto.
Qed.

(** C5, as the code has it: a call that raises leaves the whole object as
    it was, [compute] included; the computed flag and the recorded size
    are in particular the ones from before the call. *)
Theorem C5_raising_call_keeps_state (c : gp_call) (self self' : GP) (e : exc) :
  GP_call c self = (inl e, self') ->
  self' = self /\ computed self' = computed self /\ _data_size self' = _data_size self.
Proof.
  intros H. assert (self' = self) as ->; [|done]. revert H.
  destruct c as [| | |p|i|i v|a q f|x yerr|y]; simpl; unfold bind, get, ret; simpl;
    try congruence.
  - destruct (GP_params_set p self) as [[e'|u] s1] eqn:E; [|done].
    intros [= _ <-]. by apply GP_params_set_raises in E.
  - unfold GP_getitem, bind, get, lift. simpl.
    destruct (py_index _ _); simpl; [congruence|].
    destruct (index _ _); simpl; congruence.
  - destruct (GP_setitem i v self) as [[e'|u] s1] eqn:E; [|done].
    intros [= _ <-]. revert E. rewrite GP_setitem_unfold.
    destruct (py_index _ _); [congruence|]. apply GP_params_set_raises.
  - by rewrite GP_add_term_unfold.
  - destruct (GP_compute x yerr self) as [[e'|u] s1] eqn:E; [|done].
    intros [= _ <-]. by apply GP_compute_raises in E.
  - rewrite GP_log_likelihood_unfold.
    destruct (negb (computed self)); simpl; [congruence|].
    destruct (negb _); simpl; congruence.
Qed.

(** C10: with a time array of length 0 or 1 and a [yerr] of the same
    length, [compute] returns, records the length and leaves the process
    computed; with empty arrays the recorded size is 0. *)
Theorem C10_compute_short_series :
  (forall x yerr self,
     length x <= 1 -> length yerr = length x ->
     exists self', GP_compute x yerr self = (inr tt, self') /\
                   _data_size self' = shape0 x /\
                   computed self' = true) /\
  (forall self,
     exists self', GP_compute [] [] self = (inr tt, self') /\
                   _data_size self' = 0%Z /\
                   computed self' = true).
Proof.
  assert (forall x yerr self,
     length x <= 1 -> length yerr = length x ->
     exists self', GP_compute x yerr self = (inr tt, self') /\
                   _data_size self' = shape0 x /\
                   computed self' = true) as Hshort.
  { intros x yerr self Hlen Heq.
    apply GP_compute_returns.
    - done.
    - intros i a b Ha Hb. apply lookup_lt_Some in Hb. lia.
    - unfold shape0. assert (2 ^ 31 = 2147483648)%Z by done. lia. }
  split; [done|]. intros self. apply (Hshort [] [] self); simpl; [lia|done].
Qed.

(** ** Facts on binary64 arithmetic *)

Lemma SFabs_binary_round_aux (sx : bool) (mx ex : Z) (lx : location) :
  SFabs (binary_round_aux prec emax sx mx ex lx) =
  SFabs (binary_round_aux prec emax (negb sx) mx ex lx).
Proof.
  unfold binary_round_aux.
  destruct (shr_fexp prec emax mx ex lx) as [m1 e1].
  destruct (shr_fexp prec emax _ e1 loc_Exact) as [m2 e2].
  destruct (shr_m m2); simpl; try reflexivity.
  destruct (Z.leb _ _); reflexivity.
Qed.

Lemma SFabs_binary_normalize (m e : Z) :
  SFabs (binary_normalize prec emax m e false) =
  SFabs (binary_normalize prec emax (- m) e false).
Proof.
  destruct m; simpl; try reflexivity; unfold binary_round;
    destruct (shl_align _ _ _).
  - apply (SFabs_binary_round_aux false).
  - apply (SFabs_binary_round_aux true).
Qed.

Lemma SFabs_sub (x y : spec_float) : SFabs (SF64sub x y) = SFabs (SF64sub y x).
Proof.
  unfold SF64sub, SFsub.
  destruct x as [sx|sx| |sx mx ex], y as [sy|sy| |sy my ey]; try reflexivity;
    try (destruct sx, sy; reflexivity).
  rewrite SFabs_binary_normalize, Z.min_comm. f_equal. f_equal. lia.
Qed.

(** [fabs(a - b)] and [fabs(b - a)] are the same double. *)
Lemma abs_sub_sym (a b : float) : abs (a - b) = abs (b - a).
Proof. apply Prim2SF_inj. rewrite !abs_spec, !sub_spec. apply SFabs_sub. Qed.

(** Adding [0.0] gives the same double back, except that it turns the
    negative zero into the positive one. *)
Lemma add_zero_r (d : float) : (d + 0)%float = d \/ d = (-0)%float.
Proof.
  destruct (Prim2SF d) as [sx|sx| |sx mx ex] eqn:E.
  - destruct sx.
    + right. apply Prim2SF_inj. by rewrite E.
    + left. apply Prim2SF_inj. by rewrite add_spec, E.
  - left. apply Prim2SF_inj. by rewrite add_spec, E.
  - left. apply Prim2SF_inj. by rewrite add_spec, E.
  - left. apply Prim2SF_inj. by rewrite add_spec, E.
Qed.

Section Binary64.

Local Open Scope Z_scope.

Lemma digits2_pos_bounds (m : positive) :
  2 ^ (Z.pos (digits2_pos m) - 1) <= Z.pos m < 2 ^ Z.pos (digits2_pos m).
Proof.
  induction m as [m IH|m IH|]; simpl digits2_pos; [| |simpl; lia];
    rewrite Pos2Z.inj_succ;
    replace (Z.succ (Z.pos (digits2_pos m)) - 1)
      with (Z.succ (Z.pos (digits2_pos m) - 1)) by lia;
    rewrite !Z.pow_succ_r by lia; lia.
Qed.

Lemma shr_1_m (mrs : shr_record) :
  0 <= shr_m mrs -> shr_m (shr_1 mrs) = shr_m mrs / 2.
Proof.
  destruct mrs as [m r s]. simpl. intros Hm.
  destruct m as [|[p|p|]|p]; simpl; try lia.
  - reflexivity.
  - apply (Z.div_unique _ 2 _ 1); lia.
  - apply (Z.div_unique _ 2 _ 0); lia.
  - reflexivity.
Qed.

Lemma pow2_xO (p : positive) : 2 ^ Z.pos p~0 = 2 ^ Z.pos p * 2 ^ Z.pos p.
Proof. rewrite <- Z.pow_add_r by lia. f_equal. lia. Qed.

Lemma pow2_xI (p : positive) : 2 ^ Z.pos p~1 = 2 * (2 ^ Z.pos p * 2 ^ Z.pos p).
Proof. rewrite <- Z.pow_add_r, <- Z.pow_succ_r by lia. f_equal. lia. Qed.

Lemma iter_pos_shr_m (p : positive) (mrs : shr_record) :
  0 <= shr_m mrs ->
  shr_m (SpecFloat.iter_pos shr_1 p mrs) = shr_m mrs / 2 ^ Z.pos p.
Proof.
  revert mrs. induction p as [p IH|p IH|]; intros mrs Hm; simpl SpecFloat.iter_pos.
  - assert (0 <= shr_m (shr_1 mrs)) as H1.
    { rewrite shr_1_m by done. apply Z.div_pos; lia. }
    assert (0 <= shr_m (SpecFloat.iter_pos shr_1 p (shr_1 mrs))) as H2.
    { rewrite IH by done. apply Z.div_pos; [done|]. apply Z.pow_pos_nonneg; lia. }
    rewrite IH, IH, shr_1_m by done.
    assert (0 < 2 ^ Z.pos p) by (apply Z.pow_pos_nonneg; lia).
    rewrite !Z.div_div by lia. rewrite pow2_xI. f_equal; lia.
  - assert (0 <= shr_m (SpecFloat.iter_pos shr_1 p mrs)) as H2.
    { rewrite IH by done. apply Z.div_pos; [done|]. apply Z.pow_pos_nonneg; lia. }
    rewrite IH, IH by done.
    assert (0 < 2 ^ Z.pos p) by (apply Z.pow_pos_nonneg; lia).
    rewrite !Z.div_div by lia. by rewrite pow2_xO.
  - by apply shr_1_m.
Qed.

Lemma shr_record_of_loc_m (m : Z) (l : location) : shr_m (shr_record_of_loc m l) = m.
Proof. by destruct l as [|[]]. Qed.

Lemma shr_fexp_pos (m e : Z) (l : location) :
  0 < m -> emin <= e ->
  0 < shr_m (shr_fexp prec emax m e l).1 /\ emin <= (shr_fexp prec emax m e l).2.
Proof.
  intros Hm He. unfold shr_fexp, shr.
  destruct m as [|m|m]; try lia. simpl Zdigits2.
  pose proof (digits2_pos_bounds m) as [Hlo _].
  destruct (fexp prec emax (Z.pos (digits2_pos m) + e) - e) as [|p|p] eqn:Hp; simpl;
    rewrite ?shr_record_of_loc_m; try lia.
  rewrite iter_pos_shr_m by (rewrite shr_record_of_loc_m; lia).
  rewrite shr_record_of_loc_m.
  unfold fexp, SpecFloat.emin, prec, emax in *.
  assert (Z.pos p <= Z.pos (digits2_pos m) - 1) as Hle by lia.
  split; [|lia].
  apply Z.div_str_pos. split; [apply Z.pow_pos_nonneg; lia|].
  etrans; [|apply Hlo]. apply Z.pow_le_mono_r; lia.
Qed.

Lemma binary_round_aux_signed (sx : bool) (m e : Z) :
  0 < m -> emin <= e ->
  signed sx (binary_round_aux prec emax sx m e loc_Exact).
Proof.
  intros Hm He. unfold binary_round_aux.
  pose proof (shr_fexp_pos m e loc_Exact Hm He) as [Hm1 He1].
  destruct (shr_fexp prec emax m e loc_Exact) as [mrs1 e1]. simpl in Hm1, He1.
  set (m2 := round_nearest_even _ _).
  assert (0 < m2) as Hm2.
  { unfold m2, round_nearest_even.
    destruct (loc_of_shr_record mrs1) as [|[]]; try lia. destruct (Z.even _); lia. }
  pose proof (shr_fexp_pos m2 e1 loc_Exact Hm2 He1) as [Hm3 He3].
  destruct (shr_fexp prec emax m2 e1 loc_Exact) as [mrs3 e3]. simpl in Hm3, He3.
  destruct (shr_m mrs3); try lia. by destruct (_ <=? _).
Qed.

Lemma binary_round_signed (sx : bool) (m : positive) (e : Z) :
  emin <= e -> signed sx (binary_round prec emax sx m e).
Proof.
  intros He. unfold binary_round.
  destruct (shl_align m e _) as [mz ez] eqn:E.
  apply binary_round_aux_signed; [lia|].
  revert E. unfold shl_align.
  destruct (_ - e); intros [= <- <-]; try done.
  unfold fexp, SpecFloat.emin. lia.
Qed.

Lemma ltb_zero_binary_normalize (m e : Z) :
  emin <= e ->
  SFltb (S754_zero false) (binary_normalize prec emax m e false) = (0 <? m).
Proof.
  intros He. destruct m as [|m|m]; simpl; [done| |].
  - pose proof (binary_round_signed false m e He) as Hs.
    destruct (binary_round _ _ _ _ _) as [| | |s ? ?]; simpl in Hs; try done; by subst.
  - pose proof (binary_round_signed true m e He) as Hs.
    destruct (binary_round _ _ _ _ _) as [| | |s ? ?]; simpl in Hs; try done; by subst.
Qed.

Lemma iter_xO (m d : positive) : Z.pos (Pos.iter xO m d) = Z.pos m * 2 ^ Z.pos d.
Proof.
  induction d as [|d IH] using Pos.peano_ind.
  - simpl. lia.
  - rewrite Pos.iter_succ, Pos2Z.inj_xO, IH, Pos2Z.inj_succ, Z.pow_succ_r; lia.
Qed.

Lemma shl_align_fst (m : positive) (e ez : Z) :
  ez <= e -> Z.pos (shl_align m e ez).1 = Z.pos m * 2 ^ (e - ez).
Proof.
  intros Hle. unfold shl_align. destruct (ez - e) as [|d|d] eqn:E; simpl.
  - replace (e - ez) with 0 by lia. lia.
  - lia.
  - replace (e - ez) with (Z.pos d) by lia. apply iter_xO.
Qed.

Lemma bounded_facts (m : positive) (e : Z) :
  bounded prec emax m e = true ->
  emin <= e /\ Z.pos (digits2_pos m) <= 53 /\
  (emin < e -> Z.pos (digits2_pos m) = 53).
Proof.
  unfold bounded, canonical_mantissa, fexp, SpecFloat.emin, prec, emax.
  intros [H1 H2]%andb_true_iff. apply Z.eqb_eq in H1. lia.
Qed.

Lemma bounded_lt (mx my : positive) (ex ey : Z) :
  bounded prec emax mx ex = true -> bounded prec emax my ey = true ->
  ex < ey -> Z.pos mx < Z.pos my * 2 ^ (ey - ex).
Proof.
  intros (Hex & Hdx & _)%bounded_facts (Hey & _ & Hdy)%bounded_facts Hlt.
  specialize (Hdy ltac:(lia)).
  pose proof (digits2_pos_bounds mx) as [_ Hmx].
  pose proof (digits2_pos_bounds my) as [Hmy _]. rewrite Hdy in Hmy.
  assert (Z.pos mx < 2 ^ 53) as Hx.
  { eapply Z.lt_le_trans; [done|]. apply Z.pow_le_mono_r; lia. }
  assert (2 ^ 1 <= 2 ^ (ey - ex)) as Hp by (apply Z.pow_le_mono_r; lia).
  change (2 ^ 53) with 9007199254740992 in Hx.
  change (2 ^ (53 - 1)) with 4503599627370496 in Hmy.
  change (2 ^ 1) with 2 in Hp. nia.
Qed.

Lemma finite_compare (mx my : positive) (ex ey : Z) :
  bounded prec emax mx ex = true -> bounded prec emax my ey = true ->
  match ex ?= ey with
  | Lt => Lt
  | Gt => Gt
  | Eq => Pos.compare_cont Eq mx my
  end = (Z.pos mx * 2 ^ (ex - Z.min ex ey) ?= Z.pos my * 2 ^ (ey - Z.min ex ey)).
Proof.
  intros Hx Hy. destruct (Z.compare_spec ex ey) as [->|Hlt|Hgt].
  - rewrite Z.min_id, Z.sub_diag, !Z.mul_1_r. done.
  - rewrite Z.min_l, Z.sub_diag, Z.mul_1_r by lia. symmetry.
    apply Z.compare_lt_iff. by apply bounded_lt.
  - rewrite Z.min_r, Z.sub_diag, Z.mul_1_r by lia. symmetry.
    apply Z.compare_gt_iff. by apply bounded_lt.
Qed.

Lemma SFltb_sub (x y : spec_float) :
  valid_binary x = true -> valid_binary y = true ->
  SFltb (S754_zero false) (SF64sub y x) = SFltb x y.
Proof.
  destruct x as [sx|sx| |sx mx ex], y as [sy|sy| |sy my ey]; intros Hx Hy;
    try done; try (by destruct sx); try (by destruct sy); try (by destruct sx, sy).
  simpl in Hx, Hy.
  pose proof (bounded_facts _ _ Hx) as (Hex & _).
  pose proof (bounded_facts _ _ Hy) as (Hey & _).
  unfold SF64sub, SFsub. rewrite ltb_zero_binary_normalize by lia.
  rewrite !shl_align_fst by lia.
  pose proof (finite_compare mx my ex ey Hx Hy) as Hcmp.
  rewrite (Z.min_comm ex ey) in Hcmp.
  set (X := Z.pos mx * 2 ^ (ex - Z.min ey ex)) in *.
  set (Y := Z.pos my * 2 ^ (ey - Z.min ey ex)) in *.
  assert (0 < X) by (apply Z.mul_pos_pos; [lia|apply Z.pow_pos_nonneg; lia]).
  assert (0 < Y) by (apply Z.mul_pos_pos; [lia|apply Z.pow_pos_nonneg; lia]).
  unfold SFltb, SFcompare.
  destruct sx, sy; simpl cond_Zopp.
  - destruct (Z.compare_spec X Y) as [HXY|HXY|HXY];
      destruct (ex ?= ey); try discriminate;
      try (destruct (Pos.compare_cont Eq mx my); try discriminate); simpl;
      first [apply Z.ltb_lt; lia | apply Z.ltb_ge; lia].
  - apply Z.ltb_lt. lia.
  - apply Z.ltb_ge. lia.
  - destruct (Z.compare_spec X Y) as [HXY|HXY|HXY];
      destruct (ex ?= ey); try discriminate;
      try (destruct (Pos.compare_cont Eq mx my); try discriminate); simpl;
      first [apply Z.ltb_lt; lia | apply Z.ltb_ge; lia].
Qed.

(** [b - a > 0.0] says that [a < b]. *)
Lemma ltb_zero_sub (a b : float) : (0 <? b - a)%float = (a <? b)%float.
Proof.
  rewrite !ltb_spec, sub_spec. apply SFltb_sub; apply Prim2SF_valid.
Qed.

End Binary64.

(** ** The checks of the constructor of [Solver] *)

Lemma np_diff_lookup (t : list float) (i : nat) :
  np_diff t !! i = (t !! (i + 1)) ≫= fun b => (t !! i) ≫= fun a => Some (b - a)%float.
Proof.
  unfold np_diff. rewrite lookup_zip_with, lookup_tail.
  by replace (Datatypes.S i) with (i + 1) by lia.
Qed.

Lemma np_all_positive_diff (t : list float) :
  np_all_positive (np_diff t) = strictly_increasing t.
Proof.
  induction t as [|a t IH]; [done|]. destruct t as [|b t]; [done|].
  change (np_diff (a :: b :: t)) with ((b - a)%float :: np_diff (b :: t)).
  change (strictly_increasing (a :: b :: t))
    with ((a <? b)%float && strictly_increasing (b :: t)).
  simpl np_all_positive. fold (np_all_positive (np_diff (b :: t))).
  by rewrite ltb_zero_sub, IH.
Qed.

Lemma strictly_increasing_lookup (t : list float) :
  strictly_increasing t = true <->
  forall i a b, t !! i = Some a -> t !! (i + 1) = Some b -> (a <? b)%float = true.
Proof.
  induction t as [|a t IH]; [done|]. destruct t as [|b t].
  - split; [|done]. by intros _ [|i] a' b'.
  - change (strictly_increasing (a :: b :: t))
      with ((a <? b)%float && strictly_increasing (b :: t)).
    rewrite andb_true_iff, IH. split.
    + intros [Hab Ht] [|i] a' b' Ha' Hb'.
      * by injection Ha' as <-; injection Hb' as <-.
      * by apply (Ht i).
    + intros H. split; [by apply (H 0)|]. intros i a' b'. apply (H (Datatypes.S i)).
Qed.

Lemma strictly_increasing_false (t : list float) :
  (exists i a b, t !! i = Some a /\ t !! (i + 1) = Some b /\ (a <? b)%float = false) ->
  strictly_increasing t = false.
Proof.
  intros (i & a & b & Ha & Hb & Hlt).
  destruct (strictly_increasing t) eqn:E; [|done].
  rewrite strictly_increasing_lookup in E. by rewrite (E i a b Ha Hb) in Hlt.
Qed.

Lemma Solver_cinit_unfold (alpha_real beta_real alpha_complex : list float)
    (beta_complex : list (float * float)) (t : list float) (d : diag_arg) :
  checks_pass alpha_real beta_real alpha_complex beta_complex t ->
  Solver_cinit alpha_real beta_real alpha_complex beta_complex t d =
    let N := to_uint (shape0 t) in
    let p_real := to_uint (shape0 alpha_real) in
    let p_complex := to_uint (shape0 alpha_complex) in
    try* d := match d with
              | DScalar d => inr (map (fun z => (d + z)%float) (np_zeros_like t))
              | DArray d =>
                  if negb (shape0 d =? N)%Z
                  then inl (ValueError "diagonal dimension mismatch")
                  else inr d
              end in
    inr {| solver := BandSolver_compute
                       (BandSolver_new p_real alpha_real beta_real
                                       p_complex alpha_complex beta_complex) N t d;
           N := N; t := t; diagonal := d;
           p_real := p_real; alpha_real := alpha_real; beta_real := beta_real;
           p_complex := p_complex; alpha_complex := alpha_complex;
           beta_complex := beta_complex |}.
Proof.
  intros (Hs & Hr & Hc). unfold Solver_cinit.
  rewrite np_all_positive_diff, Hs, !shape0_eqb, !bool_decide_eq_true_2 by done. done.
Qed.

Lemma Solver_cinit_checks (alpha_real beta_real alpha_complex : list float)
    (beta_complex : list (float * float)) (t : list float) (d : diag_arg) (s : Solver) :
  Solver_cinit alpha_real beta_real alpha_complex beta_complex t d = inr s ->
  checks_pass alpha_real beta_real alpha_complex beta_complex t.
Proof.
  unfold Solver_cinit, checks_pass. rewrite np_all_positive_diff, !shape0_eqb.
  destruct (strictly_increasing _); [|done].
  do 2 (case_bool_decide; [|done]). done.
Qed.

(** What a constructed solver holds. *)
Lemma Solver_cinit_fields (ar br ac : list float) (bc : list (float * float))
    (ts : list float) (d : diag_arg) (s : Solver) :
  Solver_cinit ar br ac bc ts d = inr s ->
  N s = to_uint (shape0 ts) /\ t s = ts /\
  p_real s = to_uint (shape0 ar) /\ p_complex s = to_uint (shape0 ac) /\
  alpha_real s = ar /\ beta_real s = br /\
  alpha_complex s = ac /\ beta_complex s = bc /\
  is_Some (bs_data (solver s)) /\
  match d with
  | DScalar d => diagonal s = map (fun _ => (d + 0)%float) ts
  | DArray d => diagonal s = d /\ shape0 d = to_uint (shape0 ts)
  end.
Proof.
  intros H. pose proof (Solver_cinit_checks _ _ _ _ _ _ _ H) as Hchk.
  rewrite (Solver_cinit_unfold _ _ _ _ _ d Hchk) in H. simpl in H.
  destruct d as [d|d]; simpl in H.
  - injection H as <-. simpl. unfold np_zeros_like. rewrite map_map. eauto 12.
  - destruct (shape0 d =? to_uint (shape0 ts))%Z eqn:E; simpl in H; [|done].
    injection H as <-. simpl. apply Z.eqb_eq in E. eauto 12.
Qed.

(** C6: the constructor raises "times must be sorted" when [t] is not
    strictly increasing, some [t[i]] not being below [t[i+1]], whatever
    the coefficient arrays are, so that check comes first; when [t] is
    strictly increasing it raises the DimensionMismatch error when
    [alpha_real] and [beta_real], or [alpha_complex] and [beta_complex],
    differ in length. *)
Theorem C6_constructor_checks (ar br ac : list float) (bc : list (float * float))
    (ts : list float) (d : diag_arg) :
  ((exists i a b, ts !! i = Some a /\ ts !! (i + 1) = Some b /\
                  (a <? b)%float = false) ->
     exists e, Solver_cinit ar br ac bc ts d = inl e /\
               e = ValueError "times must be sorted" /\
               kind_of e = Some UnsortedInput) /\
  (strictly_increasing ts = true ->
     length ar <> length br \/ length ac <> length bc ->
     exists e, Solver_cinit ar br ac bc ts d = inl e /\
               e = ValueError "dimension mismatch" /\
               kind_of e = Some DimensionMismatch).
Proof.
  unfold Solver_cinit. rewrite np_all_positive_diff, !shape0_eqb. split.
  - intros Hbad. rewrite (strictly_increasing_false ts Hbad). simpl. eauto.
  - intros -> Hlen. simpl.
    case_bool_decide; simpl; [|eauto].
    case_bool_decide; simpl; [|eauto]. by destruct Hlen.
Qed.

(** When the opening checks pass, a scalar [d] always gives a solver,
    whose diagonal has the length of [t] (which is [N]) and holds
    [d + 0.0] at every index: that is [d] itself, except that the
    negative zero becomes the positive zero, which compares equal to it.
    An array [d] whose length is not [N] makes the constructor raise, the
    DimensionMismatch error when the opening checks pass. *)
Lemma Solver_cinit_diagonal (ar br ac : list float) (bc : list (float * float))
    (ts : list float) :
  (forall d : float,
     checks_pass ar br ac bc ts ->
     exists s, Solver_cinit ar br ac bc ts (DScalar d) = inr s /\
       length (diagonal s) = length ts /\
       ((shape0 ts < 2 ^ 32)%Z -> shape0 (diagonal s) = N s) /\
       forall i, i < length ts ->
         exists v, diagonal s !! i = Some v /\
                   (v = d \/ (d = (-0)%float /\ v = 0%float /\ (v =? d)%float = true))) /\
  (forall d : list float,
     shape0 d <> to_uint (shape0 ts) ->
     exists e, Solver_cinit ar br ac bc ts (DArray d) = inl e /\
       (checks_pass ar br ac bc ts ->
          e = ValueError "diagonal dimension mismatch" /\
          kind_of e = Some DimensionMismatch)).
Proof.
  split.
  - intros d Hchk. rewrite (Solver_cinit_unfold _ _ _ _ _ _ Hchk). simpl.
    eexists. split; [done|]. simpl. unfold np_zeros_like.
    rewrite !length_map. split; [done|]. split.
    + intros Hfit. unfold shape0, to_uint in *. rewrite !length_map.
      rewrite Z.mod_small; lia.
    + intros i Hi. destruct (lookup_lt_is_Some_2 ts i Hi) as [a Ha].
      exists (d + 0)%float. rewrite map_map, list_lookup_fmap, Ha. split; [done|].
      destruct (add_zero_r d) as [->| ->]; [by left|right]. done.
  - intros d Hne. unfold Solver_cinit.
    rewrite np_all_positive_diff.
    destruct (negb (strictly_increasing _)) eqn:E1.
    { eexists. split; [done|]. intros (Hs & _). by rewrite Hs in E1. }
    destruct (negb (shape0 ar =? shape0 br)%Z) eqn:E2.
    { eexists. split; [done|]. intros (_ & Hr & _).
      rewrite shape0_eqb, bool_decide_eq_true_2 in E2; done. }
    destruct (negb (shape0 ac =? shape0 bc)%Z) eqn:E3.
    { eexists. split; [done|]. intros (_ & _ & Hc).
      rewrite shape0_eqb, bool_decide_eq_true_2 in E3; done. }
    apply Z.eqb_neq in Hne. rewrite Hne. simpl. eauto.
Qed.

Lemma py_float_None (d : diag_object) :
  py_float d = None <->
  match d with
  | PyNumber _ => False
  | PyList _ => True
  | PyNdarray a => length a <> 1
  end.
Proof. destruct d as [x|a|[|x [|x' a]]]; simpl; split; (done || lia || auto). Qed.

(** C7, as the code has it: an argument [d] that [float] converts, a
    number or an array of one entry, gives (when the opening checks pass)
    a solver whose diagonal has the length of [t], which is [N], and
    holds that value plus [0.0] at every index: the value itself, except
    that the negative zero becomes the positive zero, which compares
    equal to it.  An argument that [float] does not convert, a list or an
    array of no or several entries, and whose length is not [N], makes
    the constructor raise, the DimensionMismatch error when the opening
    checks pass. *)
Theorem C7_diagonal_argument (ar br ac : list float) (bc : list (float * float))
    (ts : list float) :
  (forall (d : diag_object) (x : float),
     py_float d = Some x ->
     checks_pass ar br ac bc ts ->
     exists s, Solver_construct ar br ac bc ts d = inr s /\
       length (diagonal s) = length ts /\
       ((shape0 ts < 2 ^ 32)%Z -> shape0 (diagonal s) = N s) /\
       forall i, i < length ts ->
         exists v, diagonal s !! i = Some v /\
                   (v = x \/ (x = (-0)%float /\ v = 0%float /\ (v =? x)%float = true))) /\
  (forall d : diag_object,
     match d with
     | PyNumber _ => False
     | PyList _ => True
     | PyNdarray a => length a <> 1
     end ->
     shape0 (np_atleast_1d d) <> to_uint (shape0 ts) ->
     exists e, Solver_construct ar br ac bc ts d = inl e /\
       (checks_pass ar br ac bc ts ->
          e = ValueError "diagonal dimension mismatch" /\
          kind_of e = Some DimensionMismatch)).
Proof.
  split.
  - intros d x Hd Hchk. unfold Solver_construct, diag_arg_of. rewrite Hd.
    by apply (proj1 (Solver_cinit_diagonal ar br ac bc ts)).
  - intros d Hd%py_float_None Hlen. unfold Solver_construct, diag_arg_of. rewrite Hd.
    by apply (proj2 (Solver_cinit_diagonal ar br ac bc ts)).
Qed.

(** C8: a solver the constructor returned holds a factorization, its
    [log_determinant] returns, and [apply_inverse] on it raises nothing
    but the DimensionMismatch error, never NotComputed. *)
Theorem C8_constructed_solver_is_computed (ar br ac : list float)
    (bc : list (float * float)) (ts : list float) (d : diag_arg) (s : Solver) :
  Solver_cinit ar br ac bc ts d = inr s ->
  is_Some (bs_data (solver s)) /\
  Solver_log_determinant s = inr (log_determinant_value (solver s)) /\
  forall y in_place h e h',
    Solver_apply_inverse s y in_place h = (inl e, h') ->
    e = ValueError "dimension mismatch" /\ kind_of e <> Some NotComputed.
Proof.
  intros H. destruct (Solver_cinit_fields _ _ _ _ _ _ _ H)
    as (_ & _ & _ & _ & _ & _ & _ & _ & [dat Hdat] & _).
  split; [eauto|]. split.
  - unfold Solver_log_determinant, BandSolver_log_determinant. by rewrite Hdat.
  - intros y in_place h e h'.
    unfold Solver_apply_inverse, np_empty_like, BandSolver_solve, bind, get, lift,
      modify, raise, ret.
    simpl. rewrite Hdat. destruct (negb _); [|by destruct in_place].
    by intros [= <- _].
Qed.

(** The arrays of the store. *)

Lemma elements_contiguous (h : store) (y : ndarray) (buf : list float) :
  nd_stride y = 1 -> h !! nd_base y = Some buf ->
  nd_offset y + nd_len y <= length buf ->
  elements h y = read_data h y (nd_len y).
Proof.
  intros Hs Hy Hin. unfold elements, read_data.
  rewrite (lookup_total_correct _ _ _ Hy), Hs. apply list_eq. intros i.
  rewrite list_lookup_fmap. destruct (decide (i < nd_len y)) as [Hi|Hi].
  - rewrite lookup_seq_lt by done. simpl.
    rewrite lookup_take_lt, lookup_drop by done.
    replace (i * 1) with i by lia.
    by destruct (lookup_lt_is_Some_2 buf (nd_offset y + i)) as [v ->]; [lia|].
  - rewrite lookup_seq_ge by lia. simpl. by rewrite lookup_take_ge by lia.
Qed.

Lemma elements_same_block (h h' : store) (y : ndarray) :
  h' !! nd_base y = h !! nd_base y -> elements h' y = elements h y.
Proof.
  intros Heq. unfold elements. by rewrite !lookup_total_alt, Heq.
Qed.

Lemma take_drop_inserts (x buf : list float) (off : nat) :
  off + length x <= length buf ->
  take (length x) (drop off (list_inserts off x buf)) = x.
Proof.
  intros Hin. apply list_eq. intros i. destruct (decide (i < length x)) as [Hi|Hi].
  - rewrite lookup_take_lt, lookup_drop by done.
    rewrite list_lookup_inserts by lia. f_equal. lia.
  - rewrite lookup_take_ge by lia. symmetry. apply lookup_ge_None. lia.
Qed.


(** [apply_inverse] with [in_place] false, on an array of length [N] that
    is in the store. *)
Lemma apply_inverse_new_array (s : Solver) (y : ndarray) (h : store) :
  is_Some (bs_data (solver s)) -> Z.of_nat (nd_len y) = N s ->
  is_Some (h !! nd_base y) ->
  Solver_apply_inverse s y false h =
    (inr {| nd_base := fresh (dom h); nd_offset := 0; nd_stride := 1;
            nd_len := nd_len y |},
     <[fresh (dom h) :=
         list_inserts 0
           (take (nd_len y) (solve_value (solver s) (read_data h y (nd_len y))))
           (map uninit (seq 0 (nd_len y)))]> h).
Proof.
  intros [dat Hdat] Hlen [buf Hy].
  assert (fresh (dom h) <> nd_base y) as Hne.
  { intros Heq. apply (is_fresh (dom h)). rewrite Heq. apply elem_of_dom. eauto. }
  unfold Solver_apply_inverse, np_empty_like, BandSolver_solve, bind, get, lift,
    modify, raise, ret.
  rewrite <- Hlen, Z.eqb_refl, Nat2Z.id. simpl. rewrite Hdat. simpl.
  unfold write_data, read_data. simpl.
  rewrite lookup_total_insert_ne by done.
  by rewrite alter_insert_eq.
Qed.


(** ** The loops of [get_matrix] *)

Lemma for_loop_fold {A S} (l : list A) (g : S -> A -> S)
    (body : nat -> S -> res S) (s : S) :
  (forall i a s, l !! i = Some a -> body i s = inr (g s a)) ->
  for_loop (seq 0 (length l)) body s = inr (fold_left g l s).
Proof.
  revert s. induction l as [|a l IH] using rev_ind; intros s Hbody; [done|].
  rewrite length_app, seq_app, for_loop_app, fold_left_app. simpl.
  rewrite IH.
  - simpl. rewrite (Hbody (length l) a); [done|].
    rewrite lookup_app_r by lia. by rewrite Nat.sub_diag.
  - intros i b s' Hi. apply Hbody. rewrite lookup_app_l; [done|].
    by apply lookup_lt_Some in Hi.
Qed.

Lemma to_uint_small (z : Z) : (0 <= z < 2 ^ 32)%Z -> to_uint z = z.
Proof. intros Hz. unfold to_uint. by rewrite Z.mod_small. Qed.

Lemma np_empty2_shape (n : nat) :
  mat_shape n (np_empty2 (Z.of_nat n) (Z.of_nat n)).
Proof.
  unfold mat_shape, np_empty2. rewrite Nat2Z.id, length_map, length_seq.
  split; [done|]. apply Forall_forall. intros row Hrow.
  apply list_elem_of_fmap in Hrow as (i & -> & _).
  by rewrite length_map, length_seq.
Qed.

Lemma mat_set_spec (n : nat) (A : matrix) (i j : nat) (v : float) :
  mat_shape n A -> i < n -> j < n ->
  exists A', mat_set A i j v = inr A' /\ mat_shape n A' /\
    forall a b, mat_get A' a b =
                if decide (a = i /\ b = j) then Some v else mat_get A a b.
Proof using Type.
  intros [Hlen Hrows] Hi Hj. unfold mat_set.
  destruct (lookup_lt_is_Some_2 A i) as [row Hrow]; [lia|]. rewrite Hrow.
  assert (length row = n) as Hr.
  { by apply (proj1 (Forall_lookup _ _) Hrows i). }
  rewrite decide_True by lia. eexists. split; [done|]. split.
  - split; [by rewrite length_insert|].
    apply Forall_insert; [done|]. by rewrite length_insert.
  - intros a b. unfold mat_get. destruct (decide (a = i)) as [->|Ha].
    + rewrite list_lookup_insert_eq by lia. rewrite Hrow. simpl.
      destruct (decide (b = j)) as [->|Hb].
      * rewrite decide_True by done. apply list_lookup_insert_eq. lia.
      * rewrite decide_False by (by intros [? ?]). by apply list_lookup_insert_ne.
    + rewrite decide_False by (by intros [? ?]). by rewrite list_lookup_insert_ne.
Qed.

Section GetMatrix.

Variable self : Solver.
Variable n : nat.
Hypothesis HN : N self = Z.of_nat n.
Hypothesis Ht : length (t self) = n.
Hypothesis Hd : length (diagonal self) = n.
Hypothesis Hpr : p_real self = Z.of_nat (length (alpha_real self)).
Hypothesis Hbr : length (alpha_real self) = length (beta_real self).
Hypothesis Hpc : p_complex self = Z.of_nat (length (alpha_complex self)).
Hypothesis Hbc : length (alpha_complex self) = length (beta_complex self).

Collection built := HN Ht Hd Hpr Hbr Hpc Hbc.

Lemma real_terms_loop (delta v : float) :
  for_loop (py_range (p_real self)) (fun p value =>
    try* a := index (alpha_real self) p in
    try* b := index (beta_real self) p in
    inr (value + a * exp (- b * delta))%float) v =
  inr (fold_left (fun v ab => (v + ab.1 * exp (- ab.2 * delta))%float)
         (zip (alpha_real self) (beta_real self)) v).
Proof using built.
  unfold py_range. rewrite Hpr, Nat2Z.id.
  replace (length (alpha_real self))
    with (length (zip (alpha_real self) (beta_real self)))
    by (rewrite length_zip_with; lia).
  apply for_loop_fold. intros i [a b] s Hi.
  apply lookup_zip_with_Some in Hi as (a' & b' & [= <- <-] & Ha & Hb).
  by rewrite (index_Some _ _ _ Ha), (index_Some _ _ _ Hb).
Qed.

Lemma complex_terms_loop (delta v : float) :
  for_loop (py_range (p_complex self)) (fun p value =>
    try* a := index (alpha_complex self) p in
    try* b := index (beta_complex self) p in
    inr (value + a * (exp (- b.1 * delta) * cos (b.2 * delta)))%float) v =
  inr (fold_left
         (fun v ab => (v + ab.1 * (exp (- ab.2.1 * delta) * cos (ab.2.2 * delta)))%float)
         (zip (alpha_complex self) (beta_complex self)) v).
Proof using built.
  unfold py_range. rewrite Hpc, Nat2Z.id.
  replace (length (alpha_complex self))
    with (length (zip (alpha_complex self) (beta_complex self)))
    by (rewrite length_zip_with; lia).
  apply for_loop_fold. intros i [a b] s Hi.
  apply lookup_zip_with_Some in Hi as (a' & b' & [= <- <-] & Ha & Hb).
  by rewrite (index_Some _ _ _ Ha), (index_Some _ _ _ Hb).
Qed.

(** The cells of row and column [i] up to index [j], and all rows and
    columns before [i], hold the entries of [K]. *)
Definition filled (i j : nat) (A : matrix) : Prop :=
  mat_shape n A /\
  forall a b, a < n -> b < n ->
    a < i \/ b < i \/ (a = i /\ b < j) \/ (b = i /\ a < j) ->
    mat_get A a b = K_entry self a b.

Lemma K_entry_diag (i : nat) (di : float) :
  diagonal self !! i = Some di ->
  K_entry self i i =
    Some (di + (np_sum (alpha_real self) + np_sum (alpha_complex self)))%float.
Proof. intros Hi. unfold K_entry. rewrite decide_True by done. by rewrite Hi. Qed.

Lemma K_entry_off (i j : nat) (ti tj : float) :
  i <> j -> t self !! i = Some ti -> t self !! j = Some tj ->
  K_entry self i j =
    Some (covariance (alpha_real self) (beta_real self)
            (alpha_complex self) (beta_complex self) (abs (ti - tj))).
Proof.
  intros Hne Hi Hj. unfold K_entry. rewrite decide_False by done.
  by rewrite Hi, Hj.
Qed.

(** One round of the loop over [j]. *)
Lemma column_round (i j : nat) (A : matrix) :
  i < j -> j < n -> filled i j A ->
  exists A',
    (try* ti := index (t self) i in
     try* tj := index (t self) j in
     let delta := abs (ti - tj) in
     let value := 0%float in
     try* value := for_loop (py_range (p_real self)) (fun p value =>
       try* a := index (alpha_real self) p in
       try* b := index (beta_real self) p in
       inr (value + a * exp (- b * delta))%float) value in
     try* value := for_loop (py_range (p_complex self)) (fun p value =>
       try* a := index (alpha_complex self) p in
       try* b := index (beta_complex self) p in
       inr (value + a * (exp (- b.1 * delta) * cos (b.2 * delta)))%float) value in
     try* A := mat_set A i j value in
     mat_set A j i value) = inr A' /\
    filled i (Datatypes.S j) A'.
Proof using built.
  intros Hij Hj [Hshape Hfill].
  destruct (lookup_lt_is_Some_2 (t self) i) as [ti Hti]; [lia|].
  destruct (lookup_lt_is_Some_2 (t self) j) as [tj Htj]; [lia|].
  rewrite (index_Some _ _ _ Hti). simpl. rewrite (index_Some _ _ _ Htj). simpl.
  rewrite real_terms_loop. simpl. rewrite complex_terms_loop. simpl.
  fold (covariance (alpha_real self) (beta_real self)
          (alpha_complex self) (beta_complex self) (abs (ti - tj))).
  set (value := covariance _ _ _ _ _).
  destruct (mat_set_spec n A i j value Hshape) as (A1 & -> & Hshape1 & Hget1); [lia..|].
  simpl.
  destruct (mat_set_spec n A1 j i value Hshape1) as (A2 & -> & Hshape2 & Hget2); [lia..|].
  eexists. split; [done|]. split; [done|].
  intros a b Ha Hb Hcell. rewrite Hget2, Hget1.
  destruct (decide (a = j /\ b = i)) as [[-> ->]|Hji].
  { rewrite (K_entry_off j i tj ti) by (done || lia).
    unfold value. by rewrite abs_sub_sym. }
  destruct (decide (a = i /\ b = j)) as [[-> ->]|Hij'].
  { by rewrite (K_entry_off i j ti tj) by (done || lia). }
  apply Hfill; [done..|]. lia.
Qed.

(** One round of the loop over [i]. *)
Lemma row_round (i : nat) (A : matrix) :
  i < n -> filled i 0 A ->
  exists A',
    (try* di := index (diagonal self) i in
     try* A := mat_set A i i
                 (di + (np_sum (alpha_real self) + np_sum (alpha_complex self)))%float in
     for_loop (py_range2 (Z.of_nat i + 1) (N self)) (fun j A =>
       try* ti := index (t self) i in
       try* tj := index (t self) j in
       let delta := abs (ti - tj) in
       let value := 0%float in
       try* value := for_loop (py_range (p_real self)) (fun p value =>
         try* a := index (alpha_real self) p in
         try* b := index (beta_real self) p in
         inr (value + a * exp (- b * delta))%float) value in
       try* value := for_loop (py_range (p_complex self)) (fun p value =>
         try* a := index (alpha_complex self) p in
         try* b := index (beta_complex self) p in
         inr (value + a * (exp (- b.1 * delta) * cos (b.2 * delta)))%float) value in
       try* A := mat_set A i j value in
       mat_set A j i value) A) = inr A' /\
    filled (Datatypes.S i) 0 A'.
Proof using built.
  intros Hi [Hshape Hfill].
  destruct (lookup_lt_is_Some_2 (diagonal self) i) as [di Hdi]; [lia|].
  rewrite (index_Some _ _ _ Hdi). simpl.
  destruct (mat_set_spec n A i i
              (di + (np_sum (alpha_real self) + np_sum (alpha_complex self)))%float
              Hshape) as (A1 & -> & Hshape1 & Hget1); [lia..|].
  simpl.
  assert (py_range2 (Z.of_nat i + 1) (N self) = seq (i + 1) (n - (i + 1))) as ->.
  { unfold py_range2. rewrite HN. f_equal; lia. }
  match goal with
  | |- exists A', for_loop ?idx ?body A1 = _ /\ _ =>
      destruct (for_loop_invariant (fun k => filled i (i + 1 + k)) idx body A1)
        as (A2 & HA2 & Hfill2)
  end.
  - split; [done|]. intros a b Ha Hb Hcell. rewrite Hget1.
    destruct (decide (a = i /\ b = i)) as [[-> ->]|Hii].
    + by rewrite (K_entry_diag i di).
    + apply Hfill; [done..|]. lia.
  - intros k j A' Hk Hfilled. apply lookup_seq in Hk as [-> Hk].
    replace (i + 1 + Datatypes.S k) with (Datatypes.S (i + 1 + k)) by lia.
    apply column_round; [lia..|done].
  - exists A2. split; [done|]. rewrite length_seq in Hfill2.
    destruct Hfill2 as [Hshape2 Hfill2]. split; [done|].
    intros a b Ha Hb Hcell. apply Hfill2; [done..|]. lia.
Qed.

Lemma get_matrix_filled :
  exists A, Solver_get_matrix self = inr A /\ mat_shape n A /\
    forall a b, a < n -> b < n -> mat_get A a b = K_entry self a b.
Proof using built.
  unfold Solver_get_matrix.
  match goal with
  | |- exists A, for_loop ?idx ?body ?A0 = _ /\ _ =>
      destruct (for_loop_invariant (fun k => filled k 0) idx body A0)
        as (A & HA & [Hshape Hfill])
  end.
  - rewrite HN. split; [apply np_empty2_shape|]. intros a b _ _ Hcell. lia.
  - intros k i A' Hk Hfilled. unfold py_range in Hk.
    apply lookup_seq in Hk as [-> Hk]. rewrite HN, Nat2Z.id in Hk. simpl.
    by apply row_round.
  - exists A. split; [done|]. split; [done|].
    unfold py_range in Hfill. rewrite length_seq, HN, Nat2Z.id in Hfill.
    intros a b Ha Hb. apply Hfill; [done..|]. lia.
Qed.

End GetMatrix.

Lemma K_entry_sym (self : Solver) (i j : nat) :
  K_entry self i j = K_entry self j i.
Proof.
  unfold K_entry. destruct (decide (i = j)) as [->|Hne].
  - by rewrite decide_True.
  - rewrite decide_False by done.
    destruct (t self !! i) as [ti|], (t self !! j) as [tj|]; simpl; try done.
    by rewrite abs_sub_sym.
Qed.

(** C1: for a solver built by the constructor (its arrays short enough
    for the C integers that count them), [get_matrix] returns an N by N
    array [A] with [A[i,i] = d[i] + asum], [asum] being the sum of
    [alpha_real] plus the sum of [alpha_complex], with
    [A[i,j] = covariance (|t_i - t_j|)] for [i <> j], the real terms
    [alpha * exp(-beta * delta)] and then the complex terms
    [alpha * (exp(-beta.real * delta) * cos(beta.imag * delta))] added up
    in order from [0.0], and with [A[i,j] = A[j,i]]. *)
Theorem C1_get_matrix_entries (ar br ac : list float) (bc : list (float * float))
    (ts : list float) (d : diag_arg) (s : Solver) :
  Solver_cinit ar br ac bc ts d = inr s ->
  (shape0 ts < 2 ^ 31)%Z -> (shape0 ar < 2 ^ 31)%Z -> (shape0 ac < 2 ^ 31)%Z ->
  match d with
  | DScalar d => diagonal s = map (fun _ => (d + 0)%float) ts
  | DArray d => diagonal s = d
  end /\
  exists A, Solver_get_matrix s = inr A /\ mat_shape (length ts) A /\
    forall i j ti tj di,
      ts !! i = Some ti -> ts !! j = Some tj -> diagonal s !! i = Some di ->
      mat_get A i j =
        Some (if decide (i = j)
              then (di + (np_sum ar + np_sum ac))%float
              else covariance ar br ac bc (abs (ti - tj))) /\
      mat_get A i j = mat_get A j i.
Proof.
  intros H Hts Har Hac.
  destruct (Solver_cinit_checks _ _ _ _ _ _ _ H) as (_ & Hbr & Hbc).
  destruct (Solver_cinit_fields _ _ _ _ _ _ _ H)
    as (HN & Ht & Hpr & Hpc & Hα & Hβ & Hγ & Hδ & _ & Hdiag).
  assert (2 ^ 31 = 2147483648)%Z as E31 by done.
  assert (2 ^ 32 = 4294967296)%Z as E32 by done.
  rewrite to_uint_small in HN, Hpr, Hpc by (unfold shape0 in *; lia).
  assert (length (diagonal s) = length ts) as Hd.
  { destruct d as [d|d].
    - by rewrite Hdiag, length_map.
    - destruct Hdiag as [-> Hlen]. rewrite to_uint_small in Hlen
        by (unfold shape0 in *; lia).
      unfold shape0 in Hlen. lia. }
  split; [by destruct d as [d|d]; [|destruct Hdiag]|].
  destruct (get_matrix_filled s (length ts)) as (A & HA & Hshape & Hfill).
  { done. }
  { by rewrite Ht. }
  { done. }
  { by rewrite Hα. }
  { by rewrite Hα, Hβ. }
  { by rewrite Hγ. }
  { by rewrite Hγ, Hδ. }
  exists A. split; [done|]. split; [done|].
  intros i j ti tj di Hi Hj Hdi.
  assert (i < length ts) by (by apply lookup_lt_Some in Hi).
  assert (j < length ts) by (by apply lookup_lt_Some in Hj).
  split.
  - rewrite Hfill by done. unfold K_entry. rewrite Ht, Hα, Hβ, Hγ, Hδ.
    destruct (decide (i = j)) as [->|Hne].
    + by rewrite Hdi.
    + by rewrite Hi, Hj.
  - rewrite !Hfill by done. apply K_entry_sym.
Qed.

End Genrp.

(** ** The theorems at concrete processes and solvers *)

Import Examples.

Lemma C1_get_matrix_entries_witness :
  exists s,
    Solver_cinit [1%float] [1%float] [2%float] [(0.5%float, 3%float)] times3
      (DScalar 0.5%float) = inr s /\
    diagonal s = map (fun _ => (0.5 + 0)%float) times3 /\
    exists A, Solver_get_matrix linear linear left_sum stale s = inr A /\
      mat_shape (length times3) A /\
      forall i j ti tj di,
        times3 !! i = Some ti -> times3 !! j = Some tj -> diagonal s !! i = Some di ->
        mat_get A i j =
          Some (if decide (i = j)
                then (di + (left_sum [1%float] + left_sum [2%float]))%float
                else covariance linear linear [1%float] [1%float]
                       [2%float] [(0.5%float, 3%float)] (abs (ti - tj))) /\
        mat_get A i j = mat_get A j i.
Proof.
  eexists. split; [vm_compute; reflexivity|].
  apply (C1_get_matrix_entries linear linear left_sum stale
           [1%float] [1%float] [2%float] [(0.5%float, 3%float)] times3
           (DScalar 0.5%float));
    vm_compute; reflexivity.
Defined.

Lemma C2_not_computed_until_compute_witness :
  computed (GP_run zero_likelihood
              [CallParamsSet []; CallLogLikelihood (ones 2);
               CallCompute times_tied (ones 4); CallAddTerm 0%float 0%float None]
              fitted) = false.
Proof.
  refine (proj2 (proj2 (proj2 (C2_not_computed_until_compute zero_likelihood)))
            [CallCompute times_tied (ones 4); CallAddTerm 0%float 0%float None]
            (GP_run zero_likelihood [CallParamsSet []; CallLogLikelihood (ones 2)] fitted)
            _ _); vm_compute; reflexivity.
Defined.

Lemma C3_log_likelihood_errors_witness :
  (exists e, GP_log_likelihood zero_likelihood (ones 5) GP_cinit = (inl e, GP_cinit) /\
             e = RuntimeError "you must call 'compute' first" /\
             kind_of e = Some NotComputed) /\
  (exists e, GP_log_likelihood zero_likelihood (ones 5) fitted = (inl e, fitted) /\
             e = ValueError "dimension mismatch" /\
             kind_of e = Some DimensionMismatch) /\
  GP_log_likelihood zero_likelihood (ones 2) fitted = (inr 0%float, fitted).
Proof.
  split; [|split].
  - apply (proj1 (C3_log_likelihood_errors zero_likelihood (ones 5) GP_cinit)).
    vm_compute; reflexivity.
  - apply (proj1 (proj2 (C3_log_likelihood_errors zero_likelihood (ones 5) fitted)));
      vm_compute; [reflexivity|discriminate].
  - apply (proj2 (proj2 (C3_log_likelihood_errors zero_likelihood (ones 2) fitted)));
      vm_compute; reflexivity.
Defined.

Lemma C4_compute_validation_witness :
  (exists e, GP_compute times3 (ones 2) GP_cinit = (inl e, GP_cinit) /\
             e = ValueError "dimension mismatch" /\
             kind_of e = Some DimensionMismatch) /\
  (exists e, GP_compute times_tied (ones 4) GP_cinit = (inl e, GP_cinit) /\
             e = ValueError "the time series must be ordered" /\
             kind_of e = Some UnsortedInput) /\
  (exists self', GP_compute times3 (ones 3) GP_cinit = (inr tt, self') /\
                 _data_size self' = 3%Z /\ computed self' = true).
Proof.
  split; [|split].
  - apply (proj1 (C4_compute_validation times3 (ones 2) GP_cinit)).
    vm_compute. lia.
  - apply (proj1 (proj2 (C4_compute_validation times_tied (ones 4) GP_cinit)));
      [reflexivity|].
    exists 1, 1%float, 1%float. vm_compute. auto.
  - apply (proj2 (proj2 (C4_compute_validation times3 (ones 3) GP_cinit)));
      [reflexivity| |vm_compute; reflexivity].
    intros [|[|[|i]]] a b Ha Hb; vm_compute in Ha, Hb; try discriminate;
      injection Ha as <-; injection Hb as <-; vm_compute; reflexivity.
Defined.

Lemma C5_raising_call_keeps_state_witness :
  GP_call zero_likelihood (CallCompute times_tied (ones 4)) fitted =
    (inl (ValueError "the time series must be ordered"), fitted) /\
  fitted = fitted /\ computed fitted = computed fitted /\
  _data_size fitted = _data_size fitted.
Proof.
  split; [vm_compute; reflexivity|].
  apply (C5_raising_call_keeps_state zero_likelihood
           (CallCompute times_tied (ones 4)) fitted fitted
           (ValueError "the time series must be ordered")).
  vm_compute; reflexivity.
Defined.

(** The sentence of C5 on [compute] fails on the code: a [compute] that
    raises on a computed process leaves it computed, with the size of the
    earlier data. *)
Lemma C5_failing_compute_stays_computed :
  computed fitted = true /\
  GP_compute times_tied (ones 4) fitted =
    (inl (ValueError "the time series must be ordered"), fitted) /\
  computed (GP_compute times_tied (ones 4) fitted).2 = true /\
  _data_size (GP_compute times_tied (ones 4) fitted).2 = 2%Z.
Proof. vm_compute. auto. Qed.

Lemma C6_constructor_checks_witness :
  (exists e, Solver_cinit [1%float] [] [] [] times_tied (DScalar 0.5%float) = inl e /\
             e = ValueError "times must be sorted" /\
             kind_of e = Some UnsortedInput) /\
  (exists e, Solver_cinit [1%float] [] [] [] times3 (DScalar 0.5%float) = inl e /\
             e = ValueError "dimension mismatch" /\
             kind_of e = Some DimensionMismatch).
Proof.
  split.
  - apply (proj1 (C6_constructor_checks [1%float] [] [] [] times_tied (DScalar 0.5%float))).
    exists 1, 1%float, 1%float. vm_compute. auto.
  - apply (proj2 (C6_constructor_checks [1%float] [] [] [] times3 (DScalar 0.5%float))).
    + vm_compute; reflexivity.
    + left. vm_compute. lia.
Defined.

Lemma C7_diagonal_argument_witness :
  (exists s, Solver_construct [1%float] [1%float] [] [] times3 (PyNumber 0.5%float) = inr s /\
     length (diagonal s) = length times3 /\
     ((shape0 times3 < 2 ^ 32)%Z -> shape0 (diagonal s) = N s) /\
     forall i, i < length times3 ->
       exists v, diagonal s !! i = Some v /\
         (v = 0.5%float \/
          (0.5%float = (-0)%float /\ v = 0%float /\ (v =? 0.5)%float = true))) /\
  (exists e, Solver_construct [1%float] [1%float] [] [] times3 (PyList (ones 2)) = inl e /\
     (checks_pass [1%float] [1%float] [] [] times3 ->
        e = ValueError "diagonal dimension mismatch" /\
        kind_of e = Some DimensionMismatch)).
Proof.
  split.
  - apply (proj1 (C7_diagonal_argument [1%float] [1%float] [] [] times3)
             (PyNumber 0.5%float) 0.5%float eq_refl).
    vm_compute. auto.
  - apply (proj2 (C7_diagonal_argument [1%float] [1%float] [] [] times3)
             (PyList (ones 2)) I).
    vm_compute. discriminate.
Defined.

(** An array of one entry is not a scalar and its length, 1, is not the
    [N = 3] of the grid, yet [float] converts it: the constructor returns
    and the diagonal holds the entry three times. *)
Lemma C7_one_element_array_is_broadcast :
  shape0 (np_atleast_1d (PyNdarray [0.5%float])) <> to_uint (shape0 times3) /\
  exists s,
    Solver_construct [1%float] [1%float] [] [] times3 (PyNdarray [0.5%float]) = inr s /\
    N s = 3%Z /\
    diagonal s = [0.5%float; 0.5%float; 0.5%float].
Proof.
  split; [vm_compute; discriminate|].
  eexists. split; [vm_compute; reflexivity|]. split; reflexivity.
Qed.

Lemma C8_constructed_solver_is_computed_witness :
  exists s,
    Solver_cinit [1%float] [1%float] [] [] times3 (DArray (ones 3)) = inr s /\
    is_Some (bs_data (solver s)) /\
    Solver_log_determinant no_log_det s = inr (no_log_det (solver s)) /\
    forall y in_place h e h',
      Solver_apply_inverse stale no_solve s y in_place h = (inl e, h') ->
      e = ValueError "dimension mismatch" /\ kind_of e <> Some NotComputed.
Proof.
  eexists. split; [vm_compute; reflexivity|].
  apply (C8_constructed_solver_is_computed stale no_solve no_log_det
           [1%float] [1%float] [] [] times3 (DArray (ones 3))).
  vm_compute; reflexivity.
Defined.



Lemma C10_compute_short_series_witness :
  (exists self', GP_compute [5%float] [1%float] fitted = (inr tt, self') /\
                 _data_size self' = 1%Z /\ computed self' = true) /\
  (exists self', GP_compute [] [] fitted = (inr tt, self') /\
                 _data_size self' = 0%Z /\ computed self' = true).
Proof.
  split.
  - apply (proj1 C10_compute_short_series [5%float] [1%float] fitted);
      vm_compute; [lia|reflexivity].
  - apply (proj2 C10_compute_short_series fitted).
Defined.

(** [compute] tests [x[i+1] <= x[i]], which is false on NaN, so a series
    holding NaN passes its ordering check; the constructor of [Solver]
    tests the differences and rejects the same series. *)
Example nan_series :
  strictly_increasing [0%float; nan] = false /\
  is_ok (GP_compute [0%float; nan] (ones 2) GP_cinit).1 = true /\
  Solver_cinit [] [] [] [] [0%float; nan] (DScalar 0%float) =
    inl (ValueError "times must be sorted").
Proof. vm_compute. auto. Qed.

(** The matrix of a solver with one real term on three points. *)
Example get_matrix_three_points :
  (try* s := Solver_cinit [1%float] [1%float] [] [] times3 (DScalar 0.5%float) in
   Solver_get_matrix linear linear left_sum stale s) =
  inr [[1.5%float; (-1)%float; (-2)%float];
       [(-1)%float; 1.5%float; (-1)%float];
       [(-2)%float; (-1)%float; 1.5%float]].
Proof. vm_compute. reflexivity. Qed.

(** * The rest of the interface

    What the methods do on the inputs and in the orders the first part
    leaves out, and the methods of [GP] that evaluate the kernel. *)

(** ** More facts on binary64 arithmetic *)

Lemma SFcompare_antisym (x y : spec_float) :
  SFcompare y x = CompOpp <$> SFcompare x y.
Proof.
  destruct x as [sx|sx| |sx mx ex], y as [sy|sy| |sy my ey]; simpl;
    try done; try (by destruct sx); try (by destruct sy); try (by destruct sx, sy).
  destruct sx, sy; simpl; try done;
    rewrite (Z.compare_antisym ex ey);
    destruct (ex ?= ey)%Z; simpl; try done;
    fold (Pos.compare mx my); fold (Pos.compare my mx);
    rewrite (Pos.compare_antisym mx my); by destruct (mx ?= my)%positive.
Qed.

Lemma SFcompare_not_nan (x y : spec_float) :
  SFeqb x x = true -> SFeqb y y = true -> is_Some (SFcompare x y).
Proof.
  destruct x as [sx|sx| |sx mx ex], y as [sy|sy| |sy my ey]; simpl; try done;
    intros _ _; eauto.
Qed.

(** On doubles that are not NaN, [b <= a] is the negation of [a < b]. *)
Lemma leb_negb_ltb (a b : float) :
  is_nan a = false -> is_nan b = false -> (b <=? a)%float = negb (a <? b)%float.
Proof.
  unfold is_nan. rewrite !FloatAxioms.eqb_spec, FloatAxioms.leb_spec, FloatAxioms.ltb_spec.
  intros Ha%negb_false_iff Hb%negb_false_iff.
  unfold SFleb, SFltb. rewrite (SFcompare_antisym (Prim2SF a) (Prim2SF b)).
  destruct (SFcompare_not_nan _ _ Ha Hb) as [c ->]. by destruct c.
Qed.

(** Whatever the doubles, [a < b] excludes [b <= a]. *)
Lemma ltb_not_leb (a b : float) :
  (a <? b)%float = true -> (b <=? a)%float = false.
Proof.
  rewrite FloatAxioms.leb_spec, FloatAxioms.ltb_spec. unfold SFleb, SFltb.
  rewrite (SFcompare_antisym (Prim2SF a) (Prim2SF b)).
  by destruct (SFcompare _ _) as [[]|].
Qed.

Lemma SFopp_binary_round_aux (sx : bool) (mx ex : Z) (lx : location) :
  SFopp (binary_round_aux prec emax sx mx ex lx) =
  binary_round_aux prec emax (negb sx) mx ex lx.
Proof.
  unfold binary_round_aux.
  destruct (shr_fexp prec emax mx ex lx) as [m1 e1].
  destruct (shr_fexp prec emax _ e1 loc_Exact) as [m2 e2].
  destruct (shr_m m2); simpl; try reflexivity.
  destruct (Z.leb _ _); reflexivity.
Qed.

Lemma SFsub_antisym (x y : spec_float) :
  SF64sub y x = SFopp (SF64sub x y) \/ SF64sub y x = SF64sub x y.
Proof.
  unfold SF64sub, SFsub.
  destruct x as [sx|sx| |sx mx ex], y as [sy|sy| |sy my ey]; simpl;
    try (by left); try (by right);
    try (destruct sx; by (left + right)); try (destruct sy; by (left + right));
    try (destruct sx, sy; by (left + right)).
  rewrite (Z.min_comm ey ex).
  set (X := cond_Zopp sx _). set (Y := cond_Zopp sy _).
  replace (Y - X)%Z with (- (X - Y))%Z by lia.
  generalize (X - Y)%Z. clear. intros [|m|m]; [by right|left..];
    change (- Z.pos m)%Z with (Z.neg m); change (- Z.neg m)%Z with (Z.pos m);
    unfold binary_normalize, binary_round;
    destruct (shl_align _ _ _); by rewrite SFopp_binary_round_aux.
Qed.

Lemma sub_antisym (a b : float) : (b - a = - (a - b) \/ b - a = a - b)%float.
Proof.
  destruct (SFsub_antisym (Prim2SF a) (Prim2SF b)) as [H|H]; [left|right];
    apply Prim2SF_inj; by rewrite ?opp_spec, !sub_spec.
Qed.

Lemma sub_diag_finite (x : float) : is_finite x = true -> (x - x)%float = 0%float.
Proof.
  unfold is_finite, is_nan, is_infinity. rewrite !FloatAxioms.eqb_spec, abs_spec.
  intros H. apply Prim2SF_inj. rewrite sub_spec.
  change (Prim2SF infinity) with (S754_infinity false) in H.
  change (Prim2SF 0) with (S754_zero false).
  destruct (Prim2SF x) as [sx|sx| |sx mx ex]; try done.
  - by destruct sx.
  - by destruct sx.
  - unfold SF64sub, SFsub. by rewrite Z.sub_diag.
Qed.


(** ** Arrays given cell by cell *)

Lemma rect_ext (n m : nat) (A B : matrix) :
  rect n m A -> rect n m B ->
  (forall a b, a < n -> b < m -> mat_get A a b = mat_get B a b) ->
  A = B.
Proof.
  intros [HA HAr] [HB HBr] Hcells. apply list_eq_same_length with n; [done..|].
  intros a rowA rowB Ha HrA HrB.
  pose proof (proj1 (Forall_lookup _ _) HAr a rowA HrA) as HlA.
  pose proof (proj1 (Forall_lookup _ _) HBr a rowB HrB) as HlB.
  apply list_eq_same_length with m; [done..|].
  intros b vA vB Hb HvA HvB. specialize (Hcells a b Ha Hb).
  unfold mat_get in Hcells. rewrite HrA, HrB in Hcells. simpl in Hcells. congruence.
Qed.

Lemma mat_set_rect (n m : nat) (A : matrix) (i j : nat) (v : float) :
  rect n m A -> i < n -> j < m ->
  exists A', mat_set A i j v = inr A' /\ rect n m A' /\
    forall a b, mat_get A' a b =
                if decide (a = i /\ b = j) then Some v else mat_get A a b.
Proof.
  intros [Hlen Hrows] Hi Hj. unfold mat_set.
  destruct (lookup_lt_is_Some_2 A i) as [row Hrow]; [lia|]. rewrite Hrow.
  assert (length row = m) as Hr.
  { by apply (proj1 (Forall_lookup _ _) Hrows i). }
  rewrite decide_True by lia. eexists. split; [done|]. split.
  - split; [by rewrite length_insert|].
    apply Forall_insert; [done|]. by rewrite length_insert.
  - intros a b. unfold mat_get. destruct (decide (a = i)) as [->|Ha].
    + rewrite list_lookup_insert_eq by lia. rewrite Hrow. simpl.
      destruct (decide (b = j)) as [->|Hb].
      * rewrite decide_True by done. apply list_lookup_insert_eq. lia.
      * rewrite decide_False by (by intros [? ?]). by apply list_lookup_insert_ne.
    + rewrite decide_False by (by intros [? ?]). by rewrite list_lookup_insert_ne.
Qed.

Lemma mat_get_map2 {A B} (f : A -> B -> float) (x1 : list A) (x2 : list B) (a b : nat) :
  mat_get (map (fun u => map (fun v => f u v) x2) x1) a b =
  x1 !! a ≫= fun u => x2 !! b ≫= fun v => Some (f u v).
Proof.
  unfold mat_get. rewrite list_lookup_fmap. destruct (x1 !! a) as [u|]; [|done].
  simpl. rewrite list_lookup_fmap. by destruct (x2 !! b).
Qed.

Lemma rect_map2 {A B} (f : A -> B -> float) (x1 : list A) (x2 : list B) :
  rect (length x1) (length x2) (map (fun u => map (fun v => f u v) x2) x1).
Proof.
  split; [by rewrite length_map|]. apply Forall_forall. intros row Hrow.
  apply list_elem_of_fmap in Hrow as (u & -> & _). by rewrite length_map.
Qed.

Lemma py_range_length {A} (x : list A) : py_range (shape0 x) = seq 0 (length x).
Proof. unfold py_range, shape0. by rewrite Nat2Z.id. Qed.

Section KernelFacts.

Variable kernel_value kernel_psd : GaussianProcess -> float -> float.
Variable uninit : nat -> float.

(** The loops of [get_matrix] of [GP] put the covariance of its
    difference into every cell. *)
Lemma GP_get_matrix_loops (g : GaussianProcess) (x1 x2 : list float) :
  for_loop (py_range (shape0 x1)) (fun i K =>
    for_loop (py_range (shape0 x2)) (fun j K =>
      try* k := mat_index K i j in
      mat_set K i j (kernel_value g k)) K) (np_outer_sub x1 x2) =
  inr (map (fun a => map (fun b => kernel_value g (a - b)) x2) x1).
Proof.
  set (n := length x1). set (m := length x2).
  set (K0 := np_outer_sub x1 x2).
  set (T := map (fun a => map (fun b => kernel_value g (a - b)) x2) x1).
  pose (done_upto := fun (i j : nat) (K : matrix) =>
    rect n m K /\
    forall a b, a < n -> b < m ->
      mat_get K a b =
        if decide (a < i \/ (a = i /\ b < j)) then mat_get T a b else mat_get K0 a b).
  rewrite !py_range_length.
  match goal with
  | |- for_loop ?idx ?body K0 = _ =>
      destruct (for_loop_invariant (fun k => done_upto k 0) idx body K0)
        as (K & HK & [Hrect Hcells])
  end.
  - split; [apply (rect_map2 (fun a b => (a - b)%float))|].
    intros a b _ _. rewrite decide_False; [done|lia].
  - intros k i K Hk Hdone. apply lookup_seq in Hk as [-> Hk]. simpl.
    match goal with
    | |- exists K1, for_loop ?idx ?body K = _ /\ _ =>
        destruct (for_loop_invariant (fun j => done_upto k j) idx body K)
          as (K' & HK' & [Hrect' Hcells'])
    end.
    + done.
    + intros j j' K' Hj [Hrect' Hcells']. apply lookup_seq in Hj as [-> Hj]. simpl.
      unfold mat_index. rewrite Hcells' by done.
      rewrite decide_False by lia. unfold K0, np_outer_sub.
      rewrite (mat_get_map2 (fun a b => (a - b)%float)).
      destruct (lookup_lt_is_Some_2 x1 k Hk) as [a Ha].
      destruct (lookup_lt_is_Some_2 x2 j Hj) as [b Hb].
      rewrite Ha. simpl. rewrite Hb. simpl.
      destruct (mat_set_rect n m K' k j (kernel_value g (a - b)) Hrect')
        as (K'' & -> & Hrect'' & Hget); [done..|].
      eexists. split; [done|]. split; [done|].
      intros a' b' Ha' Hb'. rewrite Hget.
      destruct (decide (a' = k /\ b' = j)) as [[-> ->]|Hne].
      * rewrite decide_True by lia. unfold T.
        rewrite (mat_get_map2 (fun a b => kernel_value g (a - b))), Ha. simpl.
        by rewrite Hb.
      * rewrite Hcells' by done.
        repeat case_decide; done || (exfalso; lia).
    + exists K'. split; [done|]. split; [done|].
      rewrite length_seq in Hcells'. intros a b Ha Hb. rewrite Hcells' by done.
      unfold m in *. repeat case_decide; done || (exfalso; lia).
  - rewrite HK. f_equal. apply (rect_ext n m); [done| |].
    + apply (rect_map2 (fun a b => kernel_value g (a - b))).
    + rewrite length_seq in Hcells. intros a b Ha Hb. rewrite Hcells by done.
      rewrite decide_True; [done|]. left. done.
Qed.

(** X1: [get_matrix] of [GP], on arrays short enough for the C ints that
    count them, returns the array whose cell [(i, j)] is the covariance of
    [x1[i] - x2[j]] ([x2] being [x1] when it is left out); it needs no
    [compute] and leaves the process as it was. *)
Theorem X1_GP_get_matrix_values (x1 : list float) (x2 : option (list float)) (self : GP) :
  (shape0 x1 < 2 ^ 31)%Z -> (shape0 (default x1 x2) < 2 ^ 31)%Z ->
  GP_get_matrix kernel_value x1 x2 self =
    (inr (map (fun a => map (fun b => kernel_value (gp self) (a - b)) (default x1 x2)) x1),
     self).
Proof.
  intros _ _. unfold GP_get_matrix, bind, get, lift.
  destruct x2 as [x2|]; simpl; by rewrite GP_get_matrix_loops.
Qed.

(** X2: when the covariance function is even, [get_matrix] of [GP] on one
    array gives a symmetric matrix, also where differences round to zero
    or are NaN. *)
Theorem X2_GP_get_matrix_symmetric (x : list float) (self : GP) :
  (forall d, kernel_value (gp self) (- d) = kernel_value (gp self) d) ->
  (shape0 x < 2 ^ 31)%Z ->
  exists K, GP_get_matrix kernel_value x None self = (inr K, self) /\
    forall i j, mat_get K i j = mat_get K j i.
Proof.
  intros Heven _. unfold GP_get_matrix, bind, get, lift. simpl.
  rewrite GP_get_matrix_loops. eexists. split; [done|]. intros i j.
  rewrite !(mat_get_map2 (fun a b => kernel_value (gp self) (a - b))).
  destruct (x !! i) as [a|], (x !! j) as [b|]; simpl; try done.
  destruct (sub_antisym a b) as [-> | ->]; [|done]. by rewrite Heven.
Qed.

(** X3: on one array, the diagonal cell of [get_matrix] of [GP] at a
    finite time is the covariance at lag [0.0]. *)
Theorem X3_GP_get_matrix_diagonal (x : list float) (self : GP) (i : nat) (a : float) :
  (shape0 x < 2 ^ 31)%Z ->
  x !! i = Some a -> is_finite a = true ->
  exists K, GP_get_matrix kernel_value x None self = (inr K, self) /\
    mat_get K i i = Some (kernel_value (gp self) 0).
Proof.
  intros _ Ha Hfin. unfold GP_get_matrix, bind, get, lift. simpl.
  rewrite GP_get_matrix_loops. eexists. split; [done|].
  rewrite (mat_get_map2 (fun a b => kernel_value (gp self) (a - b))), Ha. simpl.
  by rewrite sub_diag_finite.
Qed.

Lemma vec_set_lt (a : list float) (i : nat) (v : float) :
  i < length a -> vec_set a i v = inr (<[i := v]> a).
Proof. intros Hi. unfold vec_set. by rewrite decide_True. Qed.

Lemma GP_get_psd_loop (g : GaussianProcess) (w : list float) :
  for_loop (py_range (shape0 w)) (fun i psd =>
    try* wi := index w i in
    vec_set psd i (kernel_psd g wi)) (map uninit (seq 0 (length w))) =
  inr (map (kernel_psd g) w).
Proof.
  rewrite py_range_length.
  match goal with
  | |- for_loop ?idx ?body ?psd0 = _ =>
      destruct (for_loop_invariant
        (fun k psd => length psd = length w /\
           forall i, i < length w ->
             psd !! i = if decide (i < k) then map (kernel_psd g) w !! i else psd0 !! i)
        idx body psd0) as (psd & Hpsd & [Hlen Hcells])
  end.
  - split; [by rewrite length_map, length_seq|]. intros i _. by rewrite decide_False by lia.
  - intros k i psd Hk [Hlen Hcells]. apply lookup_seq in Hk as [-> Hk]. simpl.
    destruct (lookup_lt_is_Some_2 w k Hk) as [wk Hwk].
    rewrite (index_Some _ _ _ Hwk). simpl. rewrite vec_set_lt by lia.
    eexists. split; [done|]. split; [by rewrite length_insert|].
    intros i Hi. destruct (decide (i = k)) as [->|Hne].
    + rewrite list_lookup_insert_eq by lia. rewrite decide_True by lia.
      by rewrite list_lookup_fmap, Hwk.
    + rewrite list_lookup_insert_ne by done. rewrite Hcells by done.
      repeat case_decide; done || (exfalso; lia).
  - rewrite Hpsd. f_equal. apply list_eq_same_length with (length w);
      [by rewrite length_map|done|].
    intros i u v Hi Hu Hv. rewrite length_seq in Hcells.
    rewrite Hcells, decide_True in Hu by done. congruence.
Qed.

(** X4: [get_psd], on an array short enough for the C int that counts
    it, returns the spectral density of every entry of [w], in order:
    nothing of the array [np.empty_like] handed out is left; the process
    is as it was. *)
Theorem X4_GP_get_psd_values (w : list float) (self : GP) :
  (shape0 w < 2 ^ 31)%Z ->
  GP_get_psd uninit kernel_psd w self = (inr (map (kernel_psd (gp self)) w), self).
Proof.
  intros _. unfold GP_get_psd, bind, get, lift. simpl. by rewrite GP_get_psd_loop.
Qed.

End KernelFacts.

(** ** The life cycle of [GP], continued *)

Lemma strictly_increasing_false_inv (t : list float) :
  strictly_increasing t = false ->
  exists i a b, t !! i = Some a /\ t !! (i + 1) = Some b /\ (a <? b)%float = false.
Proof.
  induction t as [|a t IH]; [done|]. destruct t as [|b t]; [done|].
  change (strictly_increasing (a :: b :: t))
    with ((a <? b)%float && strictly_increasing (b :: t)).
  destruct (a <? b)%float eqn:Hab; simpl.
  - intros (i & a' & b' & Ha' & Hb' & Hlt)%IH. by exists (S i), a', b'.
  - intros _. by exists 0, a, b.
Qed.

Section GPFacts.

Variable log_likelihood_value : GaussianProcess -> list float -> float.

(** X5: after a [compute] that returned on [x], [log_likelihood] returns
    on the arrays of the length of [x] and raises the DimensionMismatch
    error on all others, whatever the process was before that [compute]. *)
Theorem X5_compute_then_log_likelihood (x yerr y : list float) (self self' : GP) :
  GP_compute x yerr self = (inr tt, self') ->
  (shape0 x < 2 ^ 31)%Z ->
  GP_log_likelihood log_likelihood_value y self' =
    if decide (length y = length x)
    then (inr (log_likelihood_value (gp self') y), self')
    else (inl (ValueError "dimension mismatch"), self').
Proof.
  rewrite GP_compute_unfold. destruct (negb _); [done|].
  destruct (for_loop _ _ _); [done|]. intros [= <-] Hfit.
  rewrite GP_log_likelihood_unfold. unfold computed. simpl.
  rewrite to_int_small by (unfold shape0 in *; lia).
  replace (0 <=? shape0 x)%Z with true by (symmetry; apply Z.leb_le; unfold shape0; lia).
  simpl. rewrite shape0_eqb. by case_bool_decide; case_decide.
Qed.

Lemma py_index_in_range {A} (a : list A) (i : Z) :
  (- shape0 a <= i < shape0 a)%Z -> exists k, py_index a i = inr k /\ k < length a.
Proof.
  intros Hi. unfold py_index, shape0 in *.
  destruct (Z.leb_spec 0 i), (Z.ltb_spec i (Z.of_nat (length a))),
    (Z.leb_spec (- Z.of_nat (length a)) i), (Z.ltb_spec i 0); simpl;
    try lia; eexists; (split; [done|lia]).
Qed.

Lemma py_index_out_of_range {A} (a : list A) (i : Z) :
  ~ (- shape0 a <= i < shape0 a)%Z ->
  py_index a i = inl (IndexError "index out of bounds").
Proof.
  intros Hi. unfold py_index, shape0 in *.
  destruct (Z.leb_spec 0 i), (Z.ltb_spec i (Z.of_nat (length a))),
    (Z.leb_spec (- Z.of_nat (length a)) i), (Z.ltb_spec i 0); simpl; try done; lia.
Qed.

(** X6: [__setitem__] with an index within [-len, len) always returns:
    the array it assigns to [params] is the one it has just read, so the
    length check of the setter cannot fail; the process is then not
    computed.  With any other index it raises [IndexError] and the
    process is as it was. *)
Theorem X6_setitem_bounds (i : Z) (value : float) (self : GP) :
  ((- GP_len self <= i < GP_len self)%Z ->
     exists self', GP_setitem i value self = (inr tt, self') /\
                   computed self' = false /\ kernel self' = kernel self) /\
  (~ (- GP_len self <= i < GP_len self)%Z ->
     GP_setitem i value self = (inl (IndexError "index out of bounds"), self)).
Proof.
  rewrite GP_setitem_unfold. unfold GP_len, GaussianProcess_size, GP_params_get. split.
  - intros (k & -> & Hk)%py_index_in_range.
    rewrite GP_params_set_unfold. unfold GaussianProcess_size.
    rewrite shape0_eqb, length_insert, bool_decide_eq_true_2 by done. simpl. eauto.
  - by intros ->%py_index_out_of_range.
Qed.

Lemma GP_call_keeps_kernel (c : gp_call) (self : GP) :
  not_add_term c = true -> kernel (GP_call log_likelihood_value c self).2 = kernel self.
Proof.
  destruct c as [| | |p|i|i v|a q f|x yerr|y]; simpl; try done; intros _;
    unfold bind, get, ret; simpl.
  - rewrite GP_params_set_unfold. by destruct (negb _).
  - unfold GP_getitem, bind, get, lift. simpl.
    destruct (py_index _ _); simpl; [done|]. by destruct (index _ _).
  - rewrite GP_setitem_unfold. destruct (py_index _ _); simpl; [done|].
    rewrite GP_params_set_unfold. by destruct (negb _).
  - rewrite GP_compute_unfold. destruct (negb _); simpl; [done|].
    by destruct (for_loop _ _ _).
  - rewrite GP_log_likelihood_unfold. destruct (negb (computed self)); simpl; [done|].
    by destruct (negb _).
Qed.

(** X7: [add_term] rebuilds the C++ process from the terms as they were
    added: whatever was assigned to [params], by the setter or by
    [__setitem__], and whatever was computed since the last [add_term]
    is gone after it. *)
Theorem X7_add_term_forgets (cs : list gp_call) (log_amp log_q : float)
    (log_freq : option float) (self : GP) :
  forallb not_add_term cs = true ->
  GP_add_term log_amp log_q log_freq (GP_run log_likelihood_value cs self) =
  GP_add_term log_amp log_q log_freq self.
Proof.
  revert self. induction cs as [|c cs IH]; intros self Hcs; simpl in *; [done|].
  apply andb_true_iff in Hcs as [Hc Hcs]. rewrite IH by done.
  rewrite !GP_add_term_unfold. by rewrite (GP_call_keeps_kernel c self Hc).
Qed.

(** X8: the ordering check of [compute], the loop over [x[i+1] <= x[i]],
    passes on every strictly increasing series, so [compute] does not
    raise the UnsortedInput error on it; on a series without NaN (with a
    [yerr] of its length) [compute] raises the UnsortedInput error, and
    leaves the process as it was, exactly when the series is not strictly
    increasing. *)
Theorem X8_compute_ordering_check (x yerr : list float) (self : GP) :
  length x = length yerr ->
  (strictly_increasing x = true ->
     for_loop (py_range (shape0 x - 1)) (ordered_round x) tt = inr tt /\
     (GP_compute x yerr self).1 <> inl (ValueError "the time series must be ordered")) /\
  (no_nan x ->
     GP_compute x yerr self = (inl (ValueError "the time series must be ordered"), self)
     <-> strictly_increasing x = false).
Proof.
  intros Hlen.
  assert (strictly_increasing x = true ->
          for_loop (py_range (shape0 x - 1)) (ordered_round x) tt = inr tt) as Hinc.
  { intros Hs. apply ordered_loop_returns.
    intros i a b Ha Hb. apply ltb_not_leb.
    by apply (proj1 (strictly_increasing_lookup x) Hs i). }
  split.
  - intros Hs. split; [by apply Hinc|].
    rewrite GP_compute_unfold, shape0_eqb, bool_decide_eq_true_2 by done.
    simpl. by rewrite (Hinc Hs).
  - intros Hnan. rewrite GP_compute_unfold, shape0_eqb, bool_decide_eq_true_2 by done.
    simpl. destruct (strictly_increasing x) eqn:Hs.
    + rewrite (Hinc eq_refl). by split.
    + apply strictly_increasing_false_inv in Hs as (i & a & b & Ha & Hb & Hlt).
      rewrite ordered_loop_raises; [done|]. exists i, a, b. split; [done|]. split; [done|].
      rewrite leb_negb_ltb, Hlt; [done|apply Hnan..].
      * apply list_elem_of_lookup. eauto.
      * apply list_elem_of_lookup. eauto.
Qed.

Lemma GP_run_not_computed (cs : list gp_call) (self : GP) :
  computed self = false -> no_compute_returns log_likelihood_value cs self = true ->
  computed (GP_run log_likelihood_value cs self) = false.
Proof.
  revert self. induction cs as [|c cs IH]; intros self Hn Hcs; simpl in *; [done|].
  apply andb_true_iff in Hcs as [Hc Hcs]. apply IH; [|done].
  destruct (computed (GP_call log_likelihood_value c self).2) eqn:E; [|done].
  destruct (GP_call_computes log_likelihood_value c self Hn E) as (x & yerr & -> & Hok).
  by rewrite Hok in Hc.
Qed.

(** X9: on a new process, and after any calls of which no [compute]
    returned, [log_likelihood] raises the NotComputed error, whatever its
    argument. *)
Theorem X9_log_likelihood_before_compute (cs : list gp_call) (y : list float) :
  no_compute_returns log_likelihood_value cs GP_cinit = true ->
  GP_log_likelihood log_likelihood_value y (GP_run log_likelihood_value cs GP_cinit) =
    (inl (RuntimeError "you must call 'compute' first"),
     GP_run log_likelihood_value cs GP_cinit).
Proof.
  intros Hcs. rewrite GP_log_likelihood_unfold.
  by rewrite (GP_run_not_computed cs GP_cinit eq_refl Hcs).
Qed.

End GPFacts.

(** ** The class [Solver], continued *)

Section SolverFacts.

Variable exp cos : float -> float.
Variable np_sum : list float -> float.
Variable solve_value : BandSolver -> list float -> list float.

Lemma Solver_cinit_returns (ar br ac : list float) (bc : list (float * float))
    (ts : list float) (d : diag_arg) :
  checks_pass ar br ac bc ts ->
  match d with
  | DScalar _ => True
  | DArray d => shape0 d = to_uint (shape0 ts)
  end ->
  is_ok (Solver_cinit ar br ac bc ts d) = true.
Proof.
  intros Hchk Hd. rewrite Solver_cinit_unfold by done. simpl.
  destruct d as [d|d]; [done|]. apply Z.eqb_eq in Hd. by rewrite Hd.
Qed.

Lemma Solver_cinit_raises (ar br ac : list float) (bc : list (float * float))
    (ts : list float) (d : diag_arg) (e : exc) :
  Solver_cinit ar br ac bc ts d = inl e ->
  (exists msg, e = ValueError msg) /\
  ~ (checks_pass ar br ac bc ts /\
     match d with
     | DScalar _ => True
     | DArray d => shape0 d = to_uint (shape0 ts)
     end).
Proof.
  unfold Solver_cinit, checks_pass. rewrite np_all_positive_diff, !shape0_eqb.
  destruct (strictly_increasing ts); simpl; [|intros [= <-]; split; [eauto|by intros [[? ?] ?]]].
  case_bool_decide as Hr; simpl;
    [|intros [= <-]; split; [eauto|by intros [(? & ? & ?) ?]]].
  case_bool_decide as Hc; simpl;
    [|intros [= <-]; split; [eauto|by intros [(? & ? & ?) ?]]].
  destruct d as [d|d]; simpl; [done|].
  destruct (shape0 d =? to_uint (shape0 ts))%Z eqn:E; simpl; [done|].
  intros [= <-]. split; [eauto|]. intros [_ Hd]. apply Z.eqb_neq in E. done.
Qed.

(** X10: the constructor of [Solver] raises one of its own errors, each
    a [ValueError], exactly when [t] is not strictly increasing, or the
    coefficient arrays do not pair up in length, or [d] is not converted
    by [float] and its length is not [N]. *)
Theorem X10_Solver_cinit_raises_iff (ar br ac : list float) (bc : list (float * float))
    (ts : list float) (d : diag_object) :
  (exists msg, Solver_construct ar br ac bc ts d = inl (ValueError msg)) <->
  ~ (strictly_increasing ts = true /\ length ar = length br /\ length ac = length bc /\
     (py_float d = None -> shape0 (np_atleast_1d d) = to_uint (shape0 ts))).
Proof.
  unfold Solver_construct, diag_arg_of. split.
  - intros [msg Hmsg] (Hs & Hr & Hc & Hd).
    apply Solver_cinit_raises in Hmsg as [_ Hno]. apply Hno. split; [done|].
    destruct (py_float d); [done|]. by apply Hd.
  - intros Hno.
    destruct (Solver_cinit ar br ac bc ts _) as [e|s] eqn:H.
    + apply Solver_cinit_raises in H as [[msg ->] _]. eauto.
    + exfalso. apply Hno.
      destruct (Solver_cinit_checks _ _ _ _ _ _ _ H) as (Hs & Hr & Hc).
      destruct (Solver_cinit_fields _ _ _ _ _ _ _ H)
        as (_ & _ & _ & _ & _ & _ & _ & _ & _ & Hd).
      repeat split; try done. intros Hnone. rewrite Hnone in Hd. by destruct Hd.
Qed.

(** The matrix of a solver the constructor returned, cell by cell. *)
Lemma constructed_get_matrix (uninit : nat -> float) (ar br ac : list float)
    (bc : list (float * float)) (ts : list float) (d : diag_arg) (s : Solver) :
  Solver_cinit ar br ac bc ts d = inr s ->
  (shape0 ts < 2 ^ 31)%Z -> (shape0 ar < 2 ^ 31)%Z -> (shape0 ac < 2 ^ 31)%Z ->
  exists A, Solver_get_matrix exp cos np_sum uninit s = inr A /\
    mat_shape (length ts) A /\
    forall a b, a < length ts -> b < length ts ->
      mat_get A a b = K_entry exp cos np_sum s a b.
Proof.
  intros H Hts Har Hac.
  destruct (Solver_cinit_checks _ _ _ _ _ _ _ H) as (_ & Hbr & Hbc).
  destruct (Solver_cinit_fields _ _ _ _ _ _ _ H)
    as (HN & Ht & Hpr & Hpc & Hα & Hβ & Hγ & Hδ & _ & Hdiag).
  assert (2 ^ 31 = 2147483648)%Z as E31 by done.
  assert (2 ^ 32 = 4294967296)%Z as E32 by done.
  rewrite to_uint_small in HN, Hpr, Hpc by (unfold shape0 in *; lia).
  assert (length (diagonal s) = length ts) as Hd.
  { destruct d as [d|d].
    - by rewrite Hdiag, length_map.
    - destruct Hdiag as [-> Hlen]. rewrite to_uint_small in Hlen
        by (unfold shape0 in *; lia).
      unfold shape0 in Hlen. lia. }
  apply get_matrix_filled; rewrite ?Ht, ?Hα, ?Hβ, ?Hγ, ?Hδ; done.
Qed.

Lemma short_grid_increasing (ts : list float) :
  length ts <= 1 -> strictly_increasing ts = true.
Proof. destruct ts as [|a [|b ts]]; simpl; [done..|lia]. Qed.

(** X11: a time grid of no point or of one point passes the ordering
    check of the constructor; with a scalar [d] the matrix of the solver
    is then the empty one, or the one cell [d + 0.0 + asum]. *)
Theorem X11_Solver_short_grid (uninit : nat -> float) (ar br ac : list float)
    (bc : list (float * float)) (ts : list float) (d : float) :
  length ts <= 1 -> length ar = length br -> length ac = length bc ->
  (shape0 ar < 2 ^ 31)%Z -> (shape0 ac < 2 ^ 31)%Z ->
  exists s, Solver_cinit ar br ac bc ts (DScalar d) = inr s /\
    Solver_get_matrix exp cos np_sum uninit s =
      inr (map (fun _ => [(d + 0 + (np_sum ar + np_sum ac))%float]) ts).
Proof.
  intros Hts Hr Hc Har Hac.
  destruct (Solver_cinit ar br ac bc ts (DScalar d)) as [e|s] eqn:H.
  { assert (is_ok (Solver_cinit ar br ac bc ts (DScalar d)) = true) as Hok.
    { apply Solver_cinit_returns; [|done]. split; [|done].
      by apply short_grid_increasing. }
    by rewrite H in Hok. }
  exists s. split; [done|].
  destruct (constructed_get_matrix uninit _ _ _ _ _ _ _ H) as (A & -> & [Hlen Hrows] & Hcells);
    [unfold shape0; assert (2 ^ 31 = 2147483648)%Z by done; lia|done..|].
  f_equal.
  destruct (Solver_cinit_fields _ _ _ _ _ _ _ H)
    as (_ & _ & _ & _ & Hα & _ & Hγ & _ & _ & Hd). simpl in Hd.
  destruct ts as [|t0 [|t1 ts]]; simpl in *; [|
    |lia].
  - by destruct A.
  - apply (rect_ext 1 1); [done|by repeat constructor|].
    intros a b Ha Hb. assert (a = 0) as -> by lia. assert (b = 0) as -> by lia.
    rewrite Hcells by lia. unfold K_entry. simpl. by rewrite Hd, Hα, Hγ.
Qed.

(** X12: with no kernel term at all, every off-diagonal cell of the
    matrix of a solver is exactly [0.0]. *)
Theorem X12_get_matrix_no_terms (uninit : nat -> float) (ts : list float)
    (d : diag_arg) (s : Solver) :
  Solver_cinit [] [] [] [] ts d = inr s ->
  (shape0 ts < 2 ^ 31)%Z ->
  exists A, Solver_get_matrix exp cos np_sum uninit s = inr A /\
    forall i j, i < length ts -> j < length ts -> i <> j ->
      mat_get A i j = Some 0%float.
Proof.
  intros H Hts.
  destruct (constructed_get_matrix uninit _ _ _ _ _ _ _ H) as (A & -> & _ & Hcells);
    [done..|].
  exists A. split; [done|]. intros i j Hi Hj Hne. rewrite Hcells by done.
  destruct (Solver_cinit_fields _ _ _ _ _ _ _ H)
    as (_ & Ht & _ & _ & Hα & Hβ & Hγ & Hδ & _).
  unfold K_entry. rewrite decide_False by done. rewrite Ht, Hα, Hβ, Hγ, Hδ.
  destruct (lookup_lt_is_Some_2 ts i Hi) as [ti ->].
  by destruct (lookup_lt_is_Some_2 ts j Hj) as [tj ->].
Qed.

(** X13: the matrix of a solver does not depend on what the memory that
    [np.empty] handed out held: every cell is assigned. *)
Theorem X13_get_matrix_no_stale_memory (uninit uninit' : nat -> float)
    (ar br ac : list float) (bc : list (float * float)) (ts : list float)
    (d : diag_arg) (s : Solver) :
  Solver_cinit ar br ac bc ts d = inr s ->
  (shape0 ts < 2 ^ 31)%Z -> (shape0 ar < 2 ^ 31)%Z -> (shape0 ac < 2 ^ 31)%Z ->
  Solver_get_matrix exp cos np_sum uninit s =
  Solver_get_matrix exp cos np_sum uninit' s.
Proof.
  intros H Hts Har Hac.
  destruct (constructed_get_matrix uninit _ _ _ _ _ _ _ H) as (A & -> & HA & Hcells);
    [done..|].
  destruct (constructed_get_matrix uninit' _ _ _ _ _ _ _ H) as (A' & -> & HA' & Hcells');
    [done..|].
  f_equal. apply (rect_ext (length ts) (length ts)); [done..|].
  intros a b Ha Hb. by rewrite Hcells, Hcells'.
Qed.

Lemma elements_new_array (h : store) (r : positive) (x : list float)
    (u : nat -> float) (n : nat) :
  length x = n ->
  h !! r = Some (list_inserts 0 (take n x) (map u (seq 0 n))) ->
  elements h {| nd_base := r; nd_offset := 0; nd_stride := 1; nd_len := n |} = x.
Proof.
  intros <- Hr. rewrite firstn_all in Hr.
  erewrite elements_contiguous; [|done|exact Hr|];
    simpl; rewrite ?length_inserts, ?length_map, ?length_seq; [|lia].
  unfold read_data. simpl. rewrite (lookup_total_correct _ _ _ Hr). simpl.
  apply (take_drop_inserts x _ 0). rewrite length_map, length_seq. lia.
Qed.

(** X14: on a solver the constructor returned, [apply_inverse] on an
    array whose length is not [N] raises the DimensionMismatch error
    before it writes anything: the store is as it was, also with
    [in_place] true. *)
Theorem X14_apply_inverse_wrong_length (uninit : nat -> float) (ar br ac : list float)
    (bc : list (float * float)) (ts : list float) (d : diag_arg) (s : Solver)
    (y : ndarray) (in_place : bool) (h : store) :
  Solver_cinit ar br ac bc ts d = inr s ->
  Z.of_nat (nd_len y) <> N s ->
  Solver_apply_inverse uninit solve_value s y in_place h =
    (inl (ValueError "dimension mismatch"), h).
Proof.
  intros _ Hlen. unfold Solver_apply_inverse, raise.
  apply Z.eqb_neq in Hlen. by rewrite Hlen.
Qed.

(** X15: two calls of [apply_inverse] on [y] with [in_place] false return
    two different new arrays, and [y], whatever its strides, still holds
    what it held; when [y] is contiguous, each of the two holds the
    solution for [y]. *)
Theorem X15_apply_inverse_twice (uninit : nat -> float) (ar br ac : list float)
    (bc : list (float * float)) (ts : list float) (d : diag_arg) (s : Solver)
    (y : ndarray) (buf : list float) (h : store) :
  Solver_cinit ar br ac bc ts d = inr s ->
  h !! nd_base y = Some buf -> Z.of_nat (nd_len y) = N s ->
  exists r1 h1 r2 h2,
    Solver_apply_inverse uninit solve_value s y false h = (inr r1, h1) /\
    Solver_apply_inverse uninit solve_value s y false h1 = (inr r2, h2) /\
    nd_base r1 <> nd_base r2 /\ nd_base r1 <> nd_base y /\ nd_base r2 <> nd_base y /\
    h2 !! nd_base y = Some buf /\
    elements h2 y = elements h y /\
    (nd_stride y = 1 -> nd_offset y + nd_len y <= length buf ->
     length (solve_value (solver s) (elements h y)) = nd_len y ->
     elements h2 r1 = solve_value (solver s) (elements h y) /\
     elements h2 r2 = solve_value (solver s) (elements h y)).
Proof.
  intros H Hy Hlen.
  destruct (Solver_cinit_fields _ _ _ _ _ _ _ H)
    as (_ & _ & _ & _ & _ & _ & _ & _ & Hdat & _).
  set (n := nd_len y) in *.
  set (r1 := fresh (dom h)).
  set (h1 := <[r1 := list_inserts 0
                       (take n (solve_value (solver s) (read_data h y n)))
                       (map uninit (seq 0 n))]> h).
  assert (r1 <> nd_base y) as Hr1.
  { intros Heq. apply (is_fresh (dom h)). fold r1. rewrite Heq. apply elem_of_dom. eauto. }
  assert (h1 !! nd_base y = Some buf) as Hy1.
  { unfold h1. by rewrite lookup_insert_ne. }
  assert (read_data h1 y n = read_data h y n) as Hread.
  { unfold read_data. by rewrite !lookup_total_alt, Hy1, Hy. }
  set (r2 := fresh (dom h1)).
  set (h2 := <[r2 := list_inserts 0
                       (take n (solve_value (solver s) (read_data h1 y n)))
                       (map uninit (seq 0 n))]> h1).
  assert (r2 <> nd_base y) as Hr2.
  { intros Heq. apply (is_fresh (dom h1)). fold r2. rewrite Heq. apply elem_of_dom. eauto. }
  assert (r2 <> r1) as Hr21.
  { intros Heq. apply (is_fresh (dom h1)). fold r2. rewrite Heq. apply elem_of_dom.
    unfold h1. rewrite lookup_insert_eq. eauto. }
  exists {| nd_base := r1; nd_offset := 0; nd_stride := 1; nd_len := n |}, h1,
         {| nd_base := r2; nd_offset := 0; nd_stride := 1; nd_len := n |}, h2.
  split; [apply apply_inverse_new_array; eauto|].
  split; [apply apply_inverse_new_array; eauto|]. simpl.
  split; [done|]. split; [done|]. split; [done|].
  split; [unfold h2; by rewrite lookup_insert_ne|].
  split.
  { apply elements_same_block. unfold h2. rewrite lookup_insert_ne by done.
    by rewrite Hy1. }
  intros Hs Hin Hsol.
  pose proof (elements_contiguous h y buf Hs Hy Hin) as Hel. fold n in Hel.
  split.
  - apply (elements_new_array h2 r1 _ uninit n Hsol).
    unfold h2. rewrite lookup_insert_ne by done. unfold h1.
    by rewrite lookup_insert_eq, Hel.
  - apply (elements_new_array h2 r2 _ uninit n Hsol).
    unfold h2. by rewrite lookup_insert_eq, Hread, Hel.
Qed.

End SolverFacts.

(** ** The version string *)

Lemma pretty_N_char_no_dot (x : BinNums.N) : Ascii.eqb (pretty_N_char x) "."%char = false.
Proof.
  destruct x as [|p]; [done|].
  do 4 (destruct p as [p|p|]; try done).
Qed.

Lemma pretty_N_go_no_dot (x : BinNums.N) (s : string) :
  no_dot s = true -> no_dot (pretty_N_go x s) = true.
Proof.
  revert s. induction (N.lt_wf_0 x) as [x _ IH]; intros s Hs.
  destruct (decide (x = 0)%N) as [->|Hx]; [by rewrite pretty_N_go_0|].
  rewrite pretty_N_go_step by lia. apply IH.
  - apply N.div_lt; lia.
  - simpl. by rewrite pretty_N_char_no_dot.
Qed.

Lemma pretty_Z_no_dot (z : Z) : no_dot (pretty z) = true.
Proof.
  destruct z as [|p|p]; [done| |].
  - unfold pretty, pretty_Z, pretty, pretty_positive, pretty, pretty_N.
    destruct (decide (Npos p = N0)); [done|]. by apply pretty_N_go_no_dot.
  - unfold pretty, pretty_Z, pretty, pretty_positive, pretty, pretty_N. simpl.
    destruct (decide (Npos p = N0)); [done|]. by apply pretty_N_go_no_dot.
Qed.

(** Two strings that agree after a first dot each agree before it. *)
Lemma app_dot_inj (s1 s2 r1 r2 : string) :
  no_dot s1 = true -> no_dot s2 = true ->
  s1 +:+ String "."%char r1 = s2 +:+ String "."%char r2 -> s1 = s2 /\ r1 = r2.
Proof.
  revert s2. induction s1 as [|c1 s1 IH]; intros [|c2 s2] H1 H2 Heq;
    cbv [String.append] in Heq; fold String.append in Heq; simpl in H1, H2.
  - by injection Heq as ->.
  - injection Heq as <- _. by apply andb_true_iff in H2 as [H2 _].
  - injection Heq as -> _. by apply andb_true_iff in H1 as [H1 _].
  - injection Heq as -> Heq.
    apply andb_true_iff in H1 as [_ H1]. apply andb_true_iff in H2 as [_ H2].
    by destruct (IH s2 H1 H2 Heq) as [-> ->].
Qed.

(** X16: the version string tells the three version numbers apart: two
    versions with the same string have the same major, minor and revision
    numbers. *)
Theorem X16_get_library_version_inj (major minor revision major' minor' revision' : Z) :
  get_library_version major minor revision =
  get_library_version major' minor' revision' ->
  major = major' /\ minor = minor' /\ revision = revision'.
Proof.
  unfold get_library_version. intros H.
  change (pretty major +:+ String "."%char (pretty minor +:+ "." +:+ pretty revision) =
          pretty major' +:+ String "."%char (pretty minor' +:+ "." +:+ pretty revision'))
    in H.
  apply app_dot_inj in H as [H1 H]; [|apply pretty_Z_no_dot..].
  change (pretty minor +:+ String "."%char (pretty revision) =
          pretty minor' +:+ String "."%char (pretty revision')) in H.
  apply app_dot_inj in H as [H2 H3]; [|apply pretty_Z_no_dot..].
  by apply (inj pretty) in H1, H2, H3.
Qed.

(** ** The further theorems at concrete processes and solvers *)

Lemma abs_opp (d : float) : abs (- d) = abs d.
Proof.
  apply Prim2SF_inj. rewrite !abs_spec, opp_spec. by destruct (Prim2SF d).
Qed.

Lemma times3_no_nan : no_nan times3.
Proof.
  intros a Ha. unfold times3 in Ha.
  repeat (apply elem_of_cons in Ha as [->|Ha]; [done|]). by apply elem_of_nil in Ha.
Qed.

Lemma X1_GP_get_matrix_values_witness :
  GP_get_matrix abs_kernel times3 (Some [0.5%float]) fitted =
    (inr [[0.5%float]; [0.5%float]; [1.5%float]], fitted).
Proof.
  apply (X1_GP_get_matrix_values abs_kernel times3 (Some [0.5%float]) fitted);
    vm_compute; reflexivity.
Defined.

Lemma X2_GP_get_matrix_symmetric_witness :
  exists K, GP_get_matrix abs_kernel times3 None GP_cinit = (inr K, GP_cinit) /\
    forall i j, mat_get K i j = mat_get K j i.
Proof.
  apply (X2_GP_get_matrix_symmetric abs_kernel times3 GP_cinit).
  - intros d. apply abs_opp.
  - vm_compute; reflexivity.
Defined.

Lemma X3_GP_get_matrix_diagonal_witness :
  exists K, GP_get_matrix abs_kernel times3 None GP_cinit = (inr K, GP_cinit) /\
    mat_get K 2 2 = Some (abs_kernel (gp GP_cinit) 0).
Proof.
  apply (X3_GP_get_matrix_diagonal abs_kernel times3 GP_cinit 2 2%float);
    vm_compute; reflexivity.
Defined.

Lemma X4_GP_get_psd_values_witness :
  GP_get_psd stale abs_kernel [(-1)%float; 2%float] fitted =
    (inr [1%float; 2%float], fitted).
Proof.
  apply (X4_GP_get_psd_values abs_kernel stale [(-1)%float; 2%float] fitted).
  vm_compute; reflexivity.
Defined.

Lemma X5_compute_then_log_likelihood_witness :
  GP_log_likelihood zero_likelihood (ones 4) fitted =
    (inl (ValueError "dimension mismatch"), fitted) /\
  GP_log_likelihood zero_likelihood (ones 2) fitted = (inr 0%float, fitted).
Proof.
  split.
  - apply (X5_compute_then_log_likelihood zero_likelihood
             [0%float; 1%float] (ones 2) (ones 4) GP_cinit fitted);
      vm_compute; reflexivity.
  - apply (X5_compute_then_log_likelihood zero_likelihood
             [0%float; 1%float] (ones 2) (ones 2) GP_cinit fitted);
      vm_compute; reflexivity.
Defined.

(** A process with one real term, computed on three points. *)
Lemma X6_setitem_bounds_witness :
  (exists self',
     GP_setitem (-1) 7%float (GP_run zero_likelihood
       [CallAddTerm 0%float 1%float None; CallCompute times3 (ones 3)] GP_cinit) =
       (inr tt, self') /\
     computed self' = false /\
     kernel self' = [RealTerm 0%float 1%float]) /\
  GP_setitem 2 7%float (GP_run zero_likelihood
    [CallAddTerm 0%float 1%float None; CallCompute times3 (ones 3)] GP_cinit) =
    (inl (IndexError "index out of bounds"),
     GP_run zero_likelihood
       [CallAddTerm 0%float 1%float None; CallCompute times3 (ones 3)] GP_cinit).
Proof.
  split.
  - apply (proj1 (X6_setitem_bounds (-1) 7%float (GP_run zero_likelihood
      [CallAddTerm 0%float 1%float None; CallCompute times3 (ones 3)] GP_cinit))).
    vm_compute. split; [discriminate|reflexivity].
  - apply (proj2 (X6_setitem_bounds 2 7%float (GP_run zero_likelihood
      [CallAddTerm 0%float 1%float None; CallCompute times3 (ones 3)] GP_cinit))).
    vm_compute. intros [_ H]. discriminate H.
Defined.

Lemma X7_add_term_forgets_witness :
  GP_add_term 0%float 1%float None
    (GP_run zero_likelihood
       [CallParamsSet []; CallCompute times3 (ones 3); CallLogLikelihood (ones 3)]
       GP_cinit) =
  GP_add_term 0%float 1%float None GP_cinit.
Proof.
  apply (X7_add_term_forgets zero_likelihood
           [CallParamsSet []; CallCompute times3 (ones 3); CallLogLikelihood (ones 3)]).
  vm_compute; reflexivity.
Defined.

Lemma X8_compute_ordering_check_witness :
  (for_loop (py_range (shape0 times3 - 1)) (ordered_round times3) tt = inr tt /\
   (GP_compute times3 (ones 3) GP_cinit).1 <>
     inl (ValueError "the time series must be ordered")) /\
  (GP_compute times_tied (ones 4) GP_cinit =
     (inl (ValueError "the time series must be ordered"), GP_cinit)
   <-> strictly_increasing times_tied = false).
Proof.
  split.
  - apply (proj1 (X8_compute_ordering_check times3 (ones 3) GP_cinit eq_refl)).
    vm_compute; reflexivity.
  - apply (proj2 (X8_compute_ordering_check times_tied (ones 4) GP_cinit eq_refl)).
    intros a Ha. repeat (apply elem_of_cons in Ha as [->|Ha]; [reflexivity|]).
    by apply elem_of_nil in Ha.
Defined.

Lemma X9_log_likelihood_before_compute_witness :
  GP_log_likelihood zero_likelihood (ones 3)
    (GP_run zero_likelihood
       [CallAddTerm 0%float 1%float None; CallCompute times_tied (ones 4)] GP_cinit) =
  (inl (RuntimeError "you must call 'compute' first"),
   GP_run zero_likelihood
     [CallAddTerm 0%float 1%float None; CallCompute times_tied (ones 4)] GP_cinit).
Proof.
  apply (X9_log_likelihood_before_compute zero_likelihood
           [CallAddTerm 0%float 1%float None; CallCompute times_tied (ones 4)] (ones 3)).
  vm_compute; reflexivity.
Defined.

Lemma X11_Solver_short_grid_witness :
  exists s, Solver_cinit [1%float] [1%float] [] [] [5%float] (DScalar 0.5%float) = inr s /\
    Solver_get_matrix linear linear left_sum stale s =
      inr (map (fun _ => [(0.5 + 0 + (left_sum [1%float] + left_sum []))%float])
             [5%float]).
Proof.
  apply (X11_Solver_short_grid linear linear left_sum stale
           [1%float] [1%float] [] [] [5%float] 0.5%float);
    vm_compute; solve [reflexivity | lia].
Defined.

Lemma X12_get_matrix_no_terms_witness :
  exists s, Solver_cinit [] [] [] [] times3 (DArray (ones 3)) = inr s /\
    exists A, Solver_get_matrix linear linear left_sum stale s = inr A /\
      forall i j, i < length times3 -> j < length times3 -> i <> j ->
        mat_get A i j = Some 0%float.
Proof.
  eexists. split; [vm_compute; reflexivity|].
  apply (X12_get_matrix_no_terms linear linear left_sum stale times3 (DArray (ones 3)));
    vm_compute; reflexivity.
Defined.

Lemma X13_get_matrix_no_stale_memory_witness :
  exists s, Solver_cinit [1%float] [1%float] [] [] times3 (DScalar 0.5%float) = inr s /\
    Solver_get_matrix linear linear left_sum stale s =
    Solver_get_matrix linear linear left_sum (fun _ => 0%float) s.
Proof.
  eexists. split; [vm_compute; reflexivity|].
  apply (X13_get_matrix_no_stale_memory linear linear left_sum stale (fun _ => 0%float)
           [1%float] [1%float] [] [] times3 (DScalar 0.5%float));
    vm_compute; reflexivity.
Defined.

Lemma X14_apply_inverse_wrong_length_witness :
  exists s, Solver_cinit [1%float] [1%float] [] [] times3 (DScalar 0.5%float) = inr s /\
    Solver_apply_inverse stale no_solve s
      {| nd_base := 1; nd_offset := 0; nd_stride := 1; nd_len := 2 |} true
      {[1%positive := ones 2]} =
      (inl (ValueError "dimension mismatch"), {[1%positive := ones 2]}).
Proof.
  eexists. split; [vm_compute; reflexivity|].
  apply (X14_apply_inverse_wrong_length no_solve stale
           [1%float] [1%float] [] [] times3 (DScalar 0.5%float) _
           {| nd_base := 1; nd_offset := 0; nd_stride := 1; nd_len := 2 |}
           true {[1%positive := ones 2]});
    vm_compute; solve [reflexivity | discriminate].
Defined.

Lemma X15_apply_inverse_twice_witness :
  exists s, Solver_cinit [1%float] [1%float] [] [] times3 (DScalar 0.5%float) = inr s /\
    exists r1 h1 r2 h2,
      Solver_apply_inverse stale twice_solve s
        {| nd_base := 1; nd_offset := 0; nd_stride := 2; nd_len := 3 |} false
        {[1%positive := [0; 1; 2; 3; 4; 5]%float]} = (inr r1, h1) /\
      Solver_apply_inverse stale twice_solve s
        {| nd_base := 1; nd_offset := 0; nd_stride := 2; nd_len := 3 |} false h1 =
        (inr r2, h2) /\
      nd_base r1 <> nd_base r2 /\ nd_base r1 <> 1%positive /\ nd_base r2 <> 1%positive /\
      h2 !! 1%positive = Some [0; 1; 2; 3; 4; 5]%float /\
      elements h2 {| nd_base := 1; nd_offset := 0; nd_stride := 2; nd_len := 3 |} =
        elements {[1%positive := [0; 1; 2; 3; 4; 5]%float]}
          {| nd_base := 1; nd_offset := 0; nd_stride := 2; nd_len := 3 |}.
Proof.
  eexists. split; [vm_compute; reflexivity|].
  assert (({[1%positive := [0; 1; 2; 3; 4; 5]%float]} : store) !! 1%positive =
          Some [0; 1; 2; 3; 4; 5]%float) as Hbuf by (vm_compute; reflexivity).
  edestruct (X15_apply_inverse_twice twice_solve stale
               [1%float] [1%float] [] [] times3 (DScalar 0.5%float) _
               {| nd_base := 1; nd_offset := 0; nd_stride := 2; nd_len := 3 |}
               [0; 1; 2; 3; 4; 5]%float {[1%positive := [0; 1; 2; 3; 4; 5]%float]}
               ltac:(vm_compute; reflexivity) Hbuf ltac:(vm_compute; reflexivity))
    as (r1 & h1 & r2 & h2 & Hc1 & Hc2 & H12 & H1 & H2 & Hy & Hel & _).
  exists r1, h1, r2, h2. split; [exact Hc1|]. split; [exact Hc2|]. split; [exact H12|].
  split; [exact H1|]. split; [exact H2|]. split; [exact Hy|]. exact Hel.
Defined.

Lemma X16_get_library_version_inj_witness :
  get_library_version 0 1 12 = "0.1.12" /\ (0 = 0 /\ 1 = 1 /\ 12 = 12)%Z.
Proof.
  split; [vm_compute; reflexivity|].
  apply (X16_get_library_version_inj 0 1 12 0 1 12). reflexivity.
Defined.
